(** * simcharts: the two ENC facades

    A shallow embedding of [seacharts/seacharts.py] (the chart ENC: a
    constructor validating two tuples, a bounding box handed to an external
    parser, a capitalising layer lookup) and of [simcharts/enc/enc.py] (the
    simulation ENC: traffic refresh, the display loop, the static-obstacle
    service handler).

    Python objects are modelled as their [__dict__] (a [gmap] from attribute
    names), calls into libraries that are not part of the sources as
    parameters of a section, exceptions as an error monad that keeps the
    state reached when the exception left the function. *)

From Stdlib Require Import ZArith Floats Ascii String List Bool Lia.
From stdpp Require Import base option gmap strings list fin_maps.

Open Scope string_scope.
Open Scope list_scope.
Open Scope Z_scope.

(* ===================================================================== *)
(** ** Python values, exceptions and the builtins the sources use        *)
(* ===================================================================== *)

Module Py.

(** The exception classes that occur. *)
Inductive exn_kind :=
| TypeError | KeyError | IndexError | AttributeError
| RecursionError | OverflowError.

(** An exception remembers where it was born: at a [raise] statement of
    the modelled file, inside a builtin (an operator, a subscript, a method
    of [str]), or inside a library the file only calls. *)
Inductive exn :=
| Raise (k : exn_kind) (msg : string)
| Builtin (k : exn_kind) (msg : string)
| Foreign (what : string).

Inductive result (A : Type) :=
| Ok (a : A)
| Err (e : exn).
Arguments Ok {A} a.
Arguments Err {A} e.

Definition is_ok {A} (r : result A) : bool :=
  match r with Ok _ => true | Err _ => false end.

(** What a call into a library gives back: a value, or the description of
    the exception that came out of the library. *)
Definition from_library {A} (r : string + A) : result A :=
  match r with
  | inl what => Err (Foreign what)
  | inr a => Ok a
  end.

#[global] Instance result_ret : MRet result := fun _ a => Ok a.
#[global] Instance result_bind : MBind result := fun _ _ f r =>
  match r with Ok a => f a | Err e => Err e end.

(** State and exceptions: when a call raises, the mutations done so far
    stay (Python has no rollback). *)
Definition M (S A : Type) : Type := S -> result A * S.

#[global] Instance M_ret {S} : MRet (M S) := fun _ a s => (Ok a, s).
#[global] Instance M_bind {S} : MBind (M S) := fun _ _ f m s =>
  match m s with
  | (Ok a, s') => f a s'
  | (Err e, s') => (Err e, s')
  end.

Definition throw {S A} (e : exn) : M S A := fun s => (Err e, s).
Definition modify {S} (f : S -> S) : M S unit := fun s => (Ok tt, f s).
Definition lift {S A} (r : result A) : M S A := fun s => (r, s).

(** The values that can be passed for [origin] and [window_size]. *)
#[warnings="-register-all"]
Inductive value :=
| VNone
| VBool (b : bool)
| VInt (z : Z)
| VFloat (f : float)
| VStr (s : string)
| VTuple (items : list value)
| VList (items : list value).

(** [isinstance(v, tuple)] *)
Definition is_tuple (v : value) : bool :=
  match v with VTuple _ => true | _ => false end.

(** [len(v)], where the sources call it. *)
Definition len (v : value) : result Z :=
  match v with
  | VStr s => Ok (Z.of_nat (String.length s))
  | VTuple l | VList l => Ok (Z.of_nat (length l))
  | _ => Err (Builtin TypeError "object has no len()")
  end.

(** Iterating a value ([zip], [*v]). *)
Definition iter (v : value) : result (list value) :=
  match v with
  | VTuple l | VList l => Ok l
  | VStr s => Ok (map (fun c => VStr (String c EmptyString)) (list_ascii_of_string s))
  | _ => Err (Builtin TypeError "object is not iterable")
  end.

(** Conversion of an [int] operand for mixed arithmetic: round to nearest
    even, [OverflowError] beyond the double range. *)
Definition float_of_int (z : Z) : result float :=
  let f := SF2Prim (SpecFloat.binary_normalize prec emax z 0 false) in
  if PrimFloat.is_infinity f
  then Err (Builtin OverflowError "int too large to convert to float")
  else Ok f.

Definition int_of_bool (b : bool) : Z := if b then 1 else 0.

(** The binary operator [+]. *)
Definition add (a b : value) : result value :=
  match a, b with
  | VInt x, VInt y => Ok (VInt (x + y))
  | VInt x, VBool y => Ok (VInt (x + int_of_bool y))
  | VBool x, VInt y => Ok (VInt (int_of_bool x + y))
  | VBool x, VBool y => Ok (VInt (int_of_bool x + int_of_bool y))
  | VFloat x, VFloat y => Ok (VFloat (PrimFloat.add x y))
  | VFloat x, VInt y => fy ← float_of_int y; Ok (VFloat (PrimFloat.add x fy))
  | VFloat x, VBool y =>
      fy ← float_of_int (int_of_bool y); Ok (VFloat (PrimFloat.add x fy))
  | VInt x, VFloat y => fx ← float_of_int x; Ok (VFloat (PrimFloat.add fx y))
  | VBool x, VFloat y =>
      fx ← float_of_int (int_of_bool x); Ok (VFloat (PrimFloat.add fx y))
  | VStr x, VStr y => Ok (VStr (x ++ y)%string)
  | VTuple x, VTuple y => Ok (VTuple (x ++ y))
  | VList x, VList y => Ok (VList (x ++ y))
  | _, _ => Err (Builtin TypeError "unsupported operand type(s) for +")
  end.

(** [(i + j for i, j in zip(a, b))], consumed to the end: the sums are
    taken left to right and the first failing one stops the generator. *)
Fixpoint sums (l : list (value * value)) : result (list value) :=
  match l with
  | [] => Ok []
  | (i, j) :: rest => x ← add i j; xs ← sums rest; Ok (x :: xs)
  end.

(** *** [str.capitalize]

    A [string] stands for the UTF-8 encoding of a Python [str]. The case
    mappings are modelled for the ASCII characters and for U+017F (LATIN
    SMALL LETTER LONG S, bytes 197 191), a character outside ASCII whose
    title case is an ASCII letter a layer name begins with: its title case
    is [S] and it is its own lower case.
    Strings with other characters outside ASCII are not covered
    ([str_is_modelled]). *)

Definition is_upper (c : ascii) : bool :=
  let n := nat_of_ascii c in (65 <=? n)%nat && (n <=? 90)%nat.
Definition is_lower (c : ascii) : bool :=
  let n := nat_of_ascii c in (97 <=? n)%nat && (n <=? 122)%nat.
Definition is_ascii (c : ascii) : bool := (nat_of_ascii c <? 128)%nat.

Definition upper (c : ascii) : ascii :=
  if is_lower c then ascii_of_nat (nat_of_ascii c - 32) else c.
Definition lower (c : ascii) : ascii :=
  if is_upper c then ascii_of_nat (nat_of_ascii c + 32) else c.

Fixpoint str_lower (s : string) : string :=
  match s with
  | EmptyString => EmptyString
  | String c s' => String (lower c) (str_lower s')
  end.

(** The two bytes of U+017F. *)
Definition is_long_s (c c' : ascii) : bool :=
  Ascii.eqb c (ascii_of_nat 197) && Ascii.eqb c' (ascii_of_nat 191).

Definition long_s : string :=
  String (ascii_of_nat 197) (String (ascii_of_nat 191) EmptyString).

(** First character title-cased, the others lower-cased. *)
Definition capitalize (s : string) : string :=
  match s with
  | EmptyString => EmptyString
  | String c s' =>
      match s' with
      | String c' s'' =>
          if is_long_s c c' then String "S" (str_lower s'')
          else String (upper c) (str_lower s')
      | EmptyString => String (upper c) EmptyString
      end
  end.

Fixpoint str_is_ascii (s : string) : bool :=
  match s with
  | EmptyString => true
  | String c s' => is_ascii c && str_is_ascii s'
  end.

(** The strings the case mappings are modelled for: ASCII characters and
    U+017F. *)
Fixpoint str_is_modelled (s : string) : bool :=
  match s with
  | EmptyString => true
  | String c s' =>
      if is_ascii c then str_is_modelled s'
      else match s' with
           | String c' s'' => is_long_s c c' && str_is_modelled s''
           | EmptyString => false
           end
  end.

(** [s] and [t] differ at most in the case of their letters. *)
Definition case_variant (s t : string) : Prop := str_lower s = str_lower t.

(** [item.capitalize()] on an arbitrary object. *)
Definition call_capitalize (item : value) : result string :=
  match item with
  | VStr s => Ok (capitalize s)
  | _ => Err (Builtin AttributeError "object has no attribute 'capitalize'")
  end.

End Py.
Import Py.

(* ===================================================================== *)
(** ** seacharts/seacharts.py: the chart ENC                             *)
(* ===================================================================== *)

Module Seacharts.

(** The three layer classes of [seacharts.features], in the order of the
    class attribute [_layers]. *)
Inductive layer_class := Ocean | Surface | Details.

Definition _layers : list layer_class := [Ocean; Surface; Details].

(** Modelled from the spec: [x.__name__] of the classes imported as [Ocean],
    [Surface] and [Details]; their definitions ([seacharts.features]) are not
    among the sources, the spec calls them the fixed three categories ocean,
    surface and detail, and the names are those of the import statement. *)
Definition __name__ (x : layer_class) : string :=
  match x with
  | Ocean => "Ocean"
  | Surface => "Surface"
  | Details => "Details"
  end.

Definition default_origin : value := VTuple [VInt 38100; VInt 6948700].
Definition default_window_size : value := VTuple [VInt 20000; VInt 16000].

(** The names bound in the body of [class ENC]. *)
Definition class_attrs : list string :=
  ["_layers"; "_features"; "default_origin"; "default_window_size";
   "default_region"; "__init__"; "__getitem__"; "__getattr__";
   "supported_features"; "supported_projection"].

(** Those of them that are properties (data descriptors: they win over the
    instance dictionary). *)
Definition properties : list string :=
  ["supported_features"; "supported_projection"].

Definition recursion_limit : nat := 1000.

(** [name] is of the form [__...]. *)
Definition dunder (name : string) : bool := String.prefix "__" name.

(** What the class only calls: the parser of [seacharts.files], the layer
    constructors of [seacharts.features] with their [features] tables, and
    the attribute names every instance inherits from [object] (all of them
    of the form [__name__]). *)
Class Library := {
  parser : Type;
  layer : Type;
  feature : Type;
  features : layer_class -> list feature;
  Parser : value -> value -> value -> string + parser;
  update_charts_data : parser -> list feature -> value -> string + parser;
  new_layer : layer_class -> parser -> string + layer;
  object_attr : string -> bool;
  object_attr_dunder : forall name, object_attr name = true -> dunder name = true
}.

Section ENC.

Context `{Library}.

(** [tuple(f for x in _layers for f in x.features)] *)
Definition _features : list feature := flat_map features _layers.

(** What an attribute of an instance can hold. [AClass name] stands for
    whatever the class (or [object]) binds to [name]. *)
Inductive attr :=
| AVal (v : value)
| AParser (p : parser)
| ALayers (d : gmap string layer)
| ALayer (l : layer)
| AClass (name : string).

(** The calls that leave the file, in the order they are made. *)
Inductive call :=
| CallParser (bounding_box region depths : value)
| CallUpdateChartsData (fs : list feature) (new_data : value)
| CallLayer (x : layer_class).

Record state := mkState {
  self : gmap string attr;
  calls : list call
}.

Definition setattr (name : string) (a : attr) : M state unit :=
  modify (fun s => mkState (<[name := a]> (self s)) (calls s)).

Definition external {A} (c : call) (r : string + A) : M state A :=
  fun s => (from_library r, mkState (self s) (calls s ++ [c])).

(** [container[key]] with a string key. *)
Definition subscript (container : attr) (key : string) : result attr :=
  match container with
  | ALayers d =>
      match d !! key with
      | Some l => Ok (ALayer l)
      | None => Err (Builtin KeyError key)
      end
  | _ => Err (Builtin TypeError "object is not subscriptable with a str")
  end.

Definition in_class (name : string) : bool :=
  bool_decide (name ∈ class_attrs) || object_attr name.

(** Attribute access [obj.name]: properties of the class, then the
    instance dictionary, then the class, then [__getattr__], which is
      [return self.__getitem__(item)]
    with [__getitem__] being
      [return self.layers[item.capitalize()]].
    [self.layers] is itself an attribute access, so on an object without
    [layers] the two methods call each other until the interpreter gives
    up; [depth] counts the nested calls that are left. *)
Fixpoint getattribute (depth : nat) (obj : gmap string attr) (name : string)
  : result attr :=
  if bool_decide (name ∈ properties) then Ok (AClass name)
  else match obj !! name with
       | Some a => Ok a
       | None =>
           if in_class name then Ok (AClass name)
           else match depth with
                | O => Err (Builtin RecursionError
                              "maximum recursion depth exceeded")
                | S d =>
                    layers ← getattribute d obj "layers";
                    key ← call_capitalize (VStr name);
                    subscript layers key
                end
       end.

Definition __getitem__ (obj : gmap string attr) (item : value) : result attr :=
  layers ← getattribute recursion_limit obj "layers";
  key ← call_capitalize item;
  subscript layers key.

Definition __getattr__ (obj : gmap string attr) (item : string) : result attr :=
  __getitem__ obj (VStr item).

(** [obj.name] as a caller writes it. *)
Definition getattr (obj : gmap string attr) (name : string) : result attr :=
  getattribute (S recursion_limit) obj name.

(** [self.name] inside a method. *)
Definition load (name : string) : M state attr :=
  fun s => (getattr (self s) name, s).

Definition as_value (a : attr) : result value :=
  match a with
  | AVal v => Ok v
  | _ => Err (Builtin TypeError "object is not iterable")
  end.

Definition as_parser (a : attr) : result parser :=
  match a with
  | AParser p => Ok p
  | _ => Err (Builtin AttributeError "object has no such method")
  end.

(** [isinstance(v, tuple) and len(v) == 2] *)
Definition is_pair (v : value) : bool :=
  is_tuple v && match len v with Ok n => n =? 2 | Err _ => false end.

(** [self.name] where a sequence is expected, and [self.parser]. *)
Definition load_items (name : string) : M state (list value) :=
  a ← load name; lift (v ← as_value a; iter v).

Definition load_parser : M state parser :=
  a ← load "parser"; lift (as_parser a).

Definition origin_message : string := "ENC: Origin should be a tuple of size two".
Definition window_message : string :=
  "ENC: Window size should be a tuple of size two".

(** Lines 35 to 40. *)
Definition check_origin (origin : value) : M state unit :=
  if is_pair origin then setattr "origin" (AVal origin)
  else throw (Raise TypeError origin_message).

(** Lines 41 to 46. *)
Definition check_window_size (window_size : value) : M state unit :=
  if is_pair window_size then setattr "window_size" (AVal window_size)
  else throw (Raise TypeError window_message).

(** Lines 47 and 48:
      [tr_corner = (i + j for i, j in zip(self.origin, self.window_size))]
      [bounding_box = *self.origin, *tr_corner]
    The generator reads its two attributes when it is made and adds when it
    is unpacked, after [self.origin] has been unpacked. *)
Definition make_bounding_box : M state value :=
  o ← load_items "origin";
  w ← load_items "window_size";
  let pairs := zip o w in
  o' ← load_items "origin";
  tr_corner ← lift (sums pairs);
  mret (VTuple (o' ++ tr_corner)).

(** Line 49. *)
Definition make_parser (bounding_box region depths : value) : M state unit :=
  p ← external (CallParser bounding_box region depths)
        (Parser bounding_box region depths);
  setattr "parser" (AParser p).

(** Line 50; the call works on the parser object in place, so the
    attribute sees the change. *)
Definition update_parser (new_data : value) : M state unit :=
  p ← load_parser;
  p' ← external (CallUpdateChartsData _features new_data)
         (update_charts_data p _features new_data);
  setattr "parser" (AParser p').

(** Line 51: [{x.__name__: x(self.parser.load) for x in self._layers}] *)
Fixpoint build_layers (xs : list layer_class) (acc : gmap string layer)
  : M state (gmap string layer) :=
  match xs with
  | [] => mret acc
  | x :: rest =>
      p ← load_parser;
      l ← external (CallLayer x) (new_layer x p);
      build_layers rest (<[__name__ x := l]> acc)
  end.

Definition __init__ (origin window_size region depths new_data : value)
  : M state unit :=
  check_origin origin;;
  check_window_size window_size;;
  bounding_box ← make_bounding_box;
  make_parser bounding_box region depths;;
  update_parser new_data;;
  layers ← build_layers _layers ∅;
  setattr "layers" (ALayers layers).

(** The expression [ENC(origin, window_size, region, depths, new_data)]: a
    fresh object is initialised; the caller gets it only if [__init__]
    returns. The calls made are reported beside the result. *)
Definition ENC (origin window_size region depths new_data : value)
  : result (gmap string attr) * list call :=
  match __init__ origin window_size region depths new_data (mkState ∅ []) with
  | (Ok _, s) => (Ok (self s), calls s)
  | (Err e, s) => (Err e, calls s)
  end.

(** *** Vocabulary for the statements *)

(** A tuple of length exactly two. *)
Definition two_tuple (v : value) : Prop := exists a b, v = VTuple [a; b].

(** The instance dictionary once the two checks have passed. *)
Definition checked (origin window_size : value) (d : gmap string attr)
  : gmap string attr :=
  <["window_size" := AVal window_size]> (<["origin" := AVal origin]> d).

(** The dictionary the comprehension of line 51 builds from parser [p], when
    every layer constructor returns. *)
Fixpoint made (p : parser) (xs : list layer_class) (acc : gmap string layer)
  : option (gmap string layer) :=
  match xs with
  | [] => Some acc
  | x :: rest =>
      match new_layer x p with
      | inr l => made p rest (<[__name__ x := l]> acc)
      | inl _ => None
      end
  end.

Definition is_parser_call (c : call) : bool :=
  match c with CallParser _ _ _ => true | _ => false end.

(** The exception that ends the mutual calls of [__getattr__] and
    [__getitem__]. *)
Definition recursion_error : exn :=
  Builtin RecursionError "maximum recursion depth exceeded".

Definition is_str (v : value) : bool :=
  match v with VStr _ => true | _ => false end.

End ENC.

End Seacharts.

(* ===================================================================== *)
(** ** simcharts/enc/enc.py: the simulation ENC                          *)
(* ===================================================================== *)

Module Simcharts.

(** The messages of [simcharts_interfaces.msg] with the fields the handler
    assigns. *)
Record Point := mkPoint { x : float; y : float }.
Record Polygon := mkPolygon { polygon : list Point }.

(** [__geo_interface__['coordinates']] of a multi-polygon: polygons, each a
    sequence of rings (the outer one first), each ring a sequence of
    positions, each position a tuple of floats. *)
Definition position := list float.
Definition ring := list position.
Definition coordinates := list (list ring).

(** The two nodes that are spun. *)
Inductive node := Self | LocalTrafficSubscriber.

(** Everything the class reaches through [rclpy], [datetime], the display,
    the environment and the helpers: each call acts on the state of the
    world outside the object and may raise. Spinning the node itself can run
    its one callback, the static-obstacle handler, which assigns no attribute
    of the node; so spinning too acts on the world only. The subscriber is
    taken to yield a mapping of its own each time it is asked. *)
Class Middleware := {
  world : Type;
  vessel : Type;
  Executor : Type;
  clock : Type;
  stamp : Type;
  spin_once : node -> option Executor -> float -> M world unit;
  get_local_traffic : M world (gmap Z vessel);
  add_node : Executor -> M world unit;
  debug : string -> M world unit;
  now_timestamp : M world float;
  refresh_vessels : gmap Z vessel -> value -> value -> M world unit;
  update_static_plot : M world unit;
  update_vessels_plot : M world unit;
  extent_size : M world value;
  extent_origin : M world value;
  get_clock : M world clock;
  clock_text : clock -> clock -> string;
  getTimeStamp : clock -> M world stamp
}.

Section ENC.

Context `{Middleware}.

(** The attributes of the node the modelled methods read or write;
    [sim_callback_time] comes from the configuration, [land] is the
    coordinate representation of [self.land.geometry]. *)
Record enc := mkEnc {
  local_traffic : gmap Z vessel;
  executor : option Executor;
  sim_callback_time : float;
  land : coordinates
}.

(** The response of [GetStaticObstacles]. *)
Record Response := mkResponse {
  timestamp : option stamp;
  static_obstacles : list Polygon
}.

Record state := mkState {
  this : enc;
  outside : world
}.

Definition self_get {A} (f : enc -> A) : M state A :=
  fun s => (Ok (f (this s)), s).

(** [self.local_traffic = t] *)
Definition with_traffic (t : gmap Z vessel) (e : enc) : enc :=
  mkEnc t (executor e) (sim_callback_time e) (land e).

Definition set_local_traffic (t : gmap Z vessel) : M state unit :=
  modify (fun s => mkState (with_traffic t (this s)) (outside s)).

Definition set_executor (e : Executor) : M state unit :=
  modify (fun s =>
    mkState (mkEnc (local_traffic (this s)) (Some e)
               (sim_callback_time (this s)) (land (this s)))
            (outside s)).

(** A call that leaves the object. *)
Definition ext {A} (c : M world A) : M state A :=
  fun s => let '(r, w) := c (outside s) in (r, mkState (this s) w).

(** [len(d)] of a dictionary. *)
Definition dict_len (d : gmap Z vessel) : Z := Z.of_nat (base.size d).

(** The literal [0.01] of the two [spin_once] calls (the nearest double, as
    in Python). *)
#[warnings="-inexact-float"]
Definition timeout_sec : float := 0.01%float.

(** The properties [size] and [origin]. *)
Definition size : M state value := ext extent_size.
Definition origin : M state value := ext extent_origin.

Definition updateLocalTraffic : M state unit :=
  e ← self_get executor;
  ext (spin_once LocalTrafficSubscriber e timeout_sec);;
  new_traffic ← ext get_local_traffic;
  if bool_decide (new_traffic ≠ ∅) then set_local_traffic new_traffic
  else mret tt.

(** The frame of [start_sim]: its parameter [duration] and the local
    variables that live across iterations (the parameter [executor] is
    stored in [self.executor] by the first statement and not read again). *)
Record locals := mkLocals {
  duration : float;
  t_start : float;
  t_i : float;
  t_i_plus_1 : float
}.

(** [self._display.refresh_vessels(self.local_traffic, self.size, self.origin)] *)
Definition show_traffic : M state unit :=
  t ← self_get local_traffic;
  sz ← size;
  og ← origin;
  ext (refresh_vessels t sz og).

(** Lines 107 to 116: everything before the loop. *)
Definition start_sim_prologue (ex : Executor) (duration : float)
  : M state locals :=
  set_executor ex;;
  ext (add_node ex);;
  ext (debug "Simulation started");;
  t0 ← ext now_timestamp;
  t1 ← ext now_timestamp;
  t2 ← ext now_timestamp;
  updateLocalTraffic;;
  show_traffic;;
  ext update_static_plot;;
  ext update_vessels_plot;;
  mret (mkLocals duration t0 t1 (PrimFloat.add t2 5000%float)).

(** Lines 118 to 128: one pass through the body of the loop. *)
Definition loop_body (l : locals) : M state locals :=
  e ← self_get executor;
  ext (spin_once Self e timeout_sec);;
  ext update_vessels_plot;;
  let delta_t := PrimFloat.sub (t_i_plus_1 l) (t_i l) in
  cbt ← self_get sim_callback_time;
  l1 ← (if PrimFloat.leb cbt delta_t then
          updateLocalTraffic;;
          t ← self_get local_traffic;
          (if bool_decide (dict_len t > 0) then
             show_traffic;;
             set_local_traffic ∅
           else mret tt);;
          now ← ext now_timestamp;
          mret (mkLocals (duration l) (t_start l) now (t_i_plus_1 l))
        else mret l);
  now ← ext now_timestamp;
  mret (mkLocals (duration l1) (t_start l1) (t_i l1) now).

(** How far a call has got when the fuel for loop iterations is used up. *)
Inductive outcome :=
| Returned (s : state)
| Raised (e : exn) (s : state)
| Running (l : locals) (s : state).

(** [while cond: body], at most [fuel] iterations. *)
Fixpoint while (fuel : nat) (cond : locals -> bool)
    (body : locals -> M state locals) (l : locals) (s : state) : outcome :=
  match fuel with
  | O => Running l s
  | S k =>
      if cond l then
        match body l s with
        | (Ok l', s') => while k cond body l' s'
        | (Err e, s') => Raised e s'
        end
      else Returned s
  end.

Definition start_sim (fuel : nat) (ex : Executor) (duration : float)
    (s : state) : outcome :=
  match start_sim_prologue ex duration s with
  | (Ok l, s') => while fuel (fun _ => true) loop_body l s'
  | (Err e, s') => Raised e s'
  end.

(** *** The static-obstacle service *)

(** [seq[i]] for a non-negative literal index. *)
Definition index {A} (l : list A) (i : nat) : result A :=
  match l !! i with
  | Some a => Ok a
  | None => Err (Builtin IndexError "index out of range")
  end.

(** The inner [for p in pol] with its accumulator [points]. *)
Fixpoint collect_points (pol : ring) (points : list Point)
  : result (list Point) :=
  match pol with
  | [] => Ok points
  | p :: rest =>
      px ← index p 0;
      py ← index p 1;
      collect_points rest (points ++ [mkPoint px py])
  end.

(** The outer [for _pol in raw_obstacles] with its accumulator
    [obstacles]. *)
Fixpoint collect_obstacles (raw : list (list ring)) (obstacles : list Polygon)
  : result (list Polygon) :=
  match raw with
  | [] => Ok obstacles
  | _pol :: rest =>
      pol ← index _pol 0;
      points ← collect_points pol [];
      collect_obstacles rest (obstacles ++ [mkPolygon points])
  end.

Definition _get_static_obstacles_callback {Request : Type}
    (request : Request) (response : Response) : M state Response :=
  ext (debug "Sending Static Obstacles...");;
  raw_obstacles ← self_get land;
  obstacles ← lift (collect_obstacles raw_obstacles []);
  c1 ← ext get_clock;
  c2 ← ext get_clock;
  ext (debug (clock_text c1 c2));;
  c ← ext get_clock;
  ts ← ext (getTimeStamp c);
  let response1 := mkResponse (Some ts) (static_obstacles response) in
  let response2 := mkResponse (timestamp response1) obstacles in
  ext (debug "Sent Static Obstacles...");;
  mret response2.

(** *** Vocabulary for the statements *)

(** A call into the world that comes back with a value, whatever the state
    of the world. *)
Definition returns {A} (c : M world A) : Prop :=
  forall w, exists a w', c w = (Ok a, w').

(** The calls of the service handler come back. *)
Definition service_calls_return : Prop :=
  (forall msg, returns (debug msg))
  /\ returns get_clock
  /\ (forall c, returns (getTimeStamp c)).

(** The calls of [start_sim] and [updateLocalTraffic] come back. *)
Definition loop_calls_return : Prop :=
  (forall n e t, returns (spin_once n e t))
  /\ returns get_local_traffic
  /\ (forall e, returns (add_node e))
  /\ (forall msg, returns (debug msg))
  /\ returns now_timestamp
  /\ (forall t sz og, returns (refresh_vessels t sz og))
  /\ returns update_static_plot
  /\ returns update_vessels_plot
  /\ returns extent_size
  /\ returns extent_origin.

(** The message [pt] holds the first two coordinates of position [p]. *)
Definition pair_of (p : position) (pt : Point) : Prop :=
  p !! 0%nat = Some (x pt) /\ p !! 1%nat = Some (y pt).

(** The polygon message [out] is the outer ring of [rings], point by point;
    the other rings do not occur in it. *)
Definition outer_ring_of (rings : list ring) (out : Polygon) : Prop :=
  exists outer holes,
    rings = outer :: holes /\ Forall2 pair_of outer (polygon out).

(** A coordinate representation as a geometry library produces it: every
    polygon has its outer ring, every position of an outer ring at least
    two coordinates. *)
Definition well_formed (raw : coordinates) : Prop :=
  Forall (fun rings =>
            exists outer holes,
              rings = outer :: holes
              /\ Forall (fun p : position => (2 <= length p)%nat) outer)
         raw.

(** The mapping [t] was yielded by the subscriber as a non-empty update. *)
Definition arrived (t : gmap Z vessel) : Prop :=
  t <> ∅ /\ exists w w', get_local_traffic w = (Ok t, w').

(** The mapping [t] was handed to the display. *)
Definition displayed (t : gmap Z vessel) : Prop :=
  exists sz og w w', refresh_vessels t sz og w = (Ok tt, w').

(** The held mapping is left alone or replaced by a non-empty update. *)
Definition only_replaced (before after : gmap Z vessel) : Prop :=
  after = before \/ arrived after.

(** What one pass through the loop can do to the held mapping: what
    [only_replaced] allows, or emptying it once a non-empty mapping (the one
    held before or such an update) has been displayed. *)
Definition loop_change (before after : gmap Z vessel) : Prop :=
  after = before
  \/ arrived after
  \/ (after = ∅
      /\ exists t, (t = before \/ arrived t) /\ t <> ∅ /\ displayed t).

(** Two frames that differ at most in [duration]. *)
Definition same_frame (l1 l2 : locals) : Prop :=
  t_start l1 = t_start l2 /\ t_i l1 = t_i l2 /\ t_i_plus_1 l1 = t_i_plus_1 l2.

(** Two runs of a computation that end in the same state of the object and
    of the world, with the same exception or with values related by [R]. *)
Definition agree {A} (R : A -> A -> Prop) (x y : result A * state) : Prop :=
  snd x = snd y
  /\ match fst x, fst y with
     | Ok a, Ok b => R a b
     | Err e1, Err e2 => e1 = e2
     | _, _ => False
     end.

(** Two calls of [start_sim] that have got equally far, in the same state,
    with frames that differ at most in [duration]. *)
Definition same_outcome (o1 o2 : outcome) : Prop :=
  match o1, o2 with
  | Returned s1, Returned s2 => s1 = s2
  | Raised e1 s1, Raised e2 s2 => e1 = e2 /\ s1 = s2
  | Running l1 s1, Running l2 s2 => same_frame l1 l2 /\ s1 = s2
  | _, _ => False
  end.

(** Computations that leave the held mapping alone. *)
Definition keeps {A} (m : M state A) : Prop :=
  forall s, local_traffic (this (snd (m s))) = local_traffic (this s).

(** Computations that come back with a value. *)
Definition succeeds {A} (m : M state A) : Prop :=
  forall s, exists a s', m s = (Ok a, s').

(** Lines 120 and 121: the pass polls the subscriber. *)
Definition polls (l : locals) (e : enc) : bool :=
  PrimFloat.leb (sim_callback_time e) (PrimFloat.sub (t_i_plus_1 l) (t_i l)).

(** Two nodes with the same executor, polling period and land. *)
Definition same_settings (e1 e2 : enc) : Prop :=
  executor e1 = executor e2
  /\ sim_callback_time e1 = sim_callback_time e2
  /\ land e1 = land e2.

(** Computations that assign no attribute of the node. *)
Definition untouched {A} (m : M state A) : Prop :=
  forall s, this (snd (m s)) = this s.

(** Computations that assign at most [local_traffic]. *)
Definition settled {A} (m : M state A) : Prop :=
  forall s, same_settings (this s) (this (snd (m s))).

(** The state a call of [start_sim] has reached. *)
Definition reached (o : outcome) : state :=
  match o with
  | Returned s | Raised _ s | Running _ s => s
  end.

End ENC.

(** *** The timer callback *)

(** The names the class body binds (its methods and properties) and the
    attributes [__init__] assigns. *)
Definition enc_names : list string :=
  ["__init__"; "size"; "center"; "origin"; "supported_crs";
   "supported_layers"; "updateLocalTraffic"; "timerCallbackGetLocalTraffic";
   "start_sim"; "fullscreen_mode"; "colorbar"; "dark_mode"; "add_vessels";
   "clear_vessels"; "add_ownship"; "remove_ownship"; "add_hazards";
   "draw_arrow"; "draw_circle"; "draw_line"; "draw_polygon";
   "draw_rectangle"; "get_display_handle"; "refresh_display";
   "close_display"; "save_image"; "_get_static_obstacles_callback";
   "local_traffic"; "executor"; "_cfg"; "sim_callback_time"; "_environment";
   "land"; "shore"; "seabed"; "_display"; "local_traffic_subscriber";
   "srv_callback_group"; "static_obstacles_srv"].

Section Timer.

Context `{Middleware}.

(** [self.get_logger().info], the methods of the class by name, and what
    the base class [Node] of [rclpy] offers: which names it defines and what
    calling one of them does. *)
Variable info : string -> M world unit.
Variable own_method : string -> M state unit.
Variable node_attr : string -> bool.
Variable node_method : string -> M state unit.

(** [self.name()] for a method without arguments: the instance and the
    class first, then the base class; the class has no [__getattr__]. *)
Definition invoke (name : string) : M state unit :=
  if bool_decide (name ∈ enc_names) then own_method name
  else if node_attr name then node_method name
  else throw (Builtin AttributeError "'ENC' object has no such attribute").

Definition timerCallbackGetLocalTraffic : M state unit :=
  ext (info "Timer expired, getting local traffic");;
  invoke "sendRequestGetLocalTraffic".

End Timer.

End Simcharts.

(* ===================================================================== *)
(** ** Small concrete libraries, to run the two classes                  *)
(* ===================================================================== *)

Module Samples.

(** Some of the attributes of [object]. *)
Definition object_names : list string :=
  ["__class__"; "__dict__"; "__doc__"; "__module__"; "__eq__"; "__hash__";
   "__repr__"; "__str__"; "__setattr__"; "__delattr__"; "__new__"].

Lemma object_names_dunder (name : string) :
  bool_decide (name ∈ object_names) = true -> Seacharts.dunder name = true.
Proof.
  intros Hin. apply bool_decide_eq_true in Hin.
  unfold object_names in Hin.
  repeat (apply elem_of_cons in Hin as [-> | Hin]; [reflexivity |]).
  inversion Hin.
Qed.

(** A parser that is its bounding box, a layer that is its class with the
    parser it was built from. *)
Definition chart_library : Seacharts.Library := {|
  Seacharts.parser := value;
  Seacharts.layer := Seacharts.layer_class * value;
  Seacharts.feature := string;
  Seacharts.features := fun x => [Seacharts.__name__ x];
  Seacharts.Parser := fun bounding_box _ _ => inr bounding_box;
  Seacharts.update_charts_data := fun p _ _ => inr p;
  Seacharts.new_layer := fun x p => inr (x, p);
  Seacharts.object_attr := fun name => bool_decide (name ∈ object_names);
  Seacharts.object_attr_dunder := object_names_dunder
|}.

Definition chart_run :=
  Seacharts.ENC (H := chart_library) Seacharts.default_origin
    Seacharts.default_window_size VNone VNone (VBool false).

(** The chart object built from the default origin and window size. *)
Definition chart : gmap string (Seacharts.attr (H := chart_library)) :=
  match fst chart_run with
  | Ok obj => obj
  | Err _ => ∅
  end.

(** A world with a queue of traffic messages not yet delivered, the mapping
    the subscriber holds, a wall clock that advances by one second per
    reading, and the list of mappings handed to the display. *)
Record sim_world := mkWorld {
  pending : list (gmap Z unit);
  latest : gmap Z unit;
  wall : float;
  shown : list (gmap Z unit)
}.

Definition sim_middleware : Simcharts.Middleware := {|
  Simcharts.world := sim_world;
  Simcharts.vessel := unit;
  Simcharts.Executor := unit;
  Simcharts.clock := float;
  Simcharts.stamp := float;
  Simcharts.spin_once := fun n _ _ w =>
    match n, pending w with
    | Simcharts.LocalTrafficSubscriber, m :: rest =>
        (Ok tt, mkWorld rest m (wall w) (shown w))
    | _, _ => (Ok tt, w)
    end;
  Simcharts.get_local_traffic := fun w => (Ok (latest w), w);
  Simcharts.add_node := fun _ w => (Ok tt, w);
  Simcharts.debug := fun _ w => (Ok tt, w);
  Simcharts.now_timestamp := fun w =>
    (Ok (wall w), mkWorld (pending w) (latest w) (PrimFloat.add (wall w) 1) (shown w));
  Simcharts.refresh_vessels := fun t _ _ w =>
    (Ok tt, mkWorld (pending w) (latest w) (wall w) (shown w ++ [t]));
  Simcharts.update_static_plot := fun w => (Ok tt, w);
  Simcharts.update_vessels_plot := fun w => (Ok tt, w);
  Simcharts.extent_size := fun w => (Ok (VTuple [VInt 20000; VInt 16000]), w);
  Simcharts.extent_origin := fun w => (Ok (VTuple [VInt 38100; VInt 6948700]), w);
  Simcharts.get_clock := fun w => (Ok (wall w), w);
  Simcharts.clock_text := fun _ _ => "CLOCK";
  Simcharts.getTimeStamp := fun c w => (Ok c, w)
|}.

Definition vessels (ids : list Z) : gmap Z unit :=
  list_to_map (map (fun i => (i, tt)) ids).

(** Two messages are waiting; the node polls once a second. *)
Definition sim_start : Simcharts.state (H := sim_middleware) :=
  Simcharts.mkState (H := sim_middleware)
    (Simcharts.mkEnc (H := sim_middleware) ∅ None 1%float [])
    (mkWorld [vessels [7]; vessels [8; 9]] ∅ 0%float []).

(** A square island with a square lake, and a triangle given with
    heights. *)
Definition island : Simcharts.coordinates :=
  [ [ [ [0; 0]; [4; 0]; [4; 4]; [0; 4]; [0; 0] ];
      [ [1; 1]; [2; 1]; [2; 2]; [1; 2]; [1; 1] ] ];
    [ [ [10; 10; 5]; [12; 10; 5]; [11; 12; 6]; [10; 10; 5] ] ] ]%float.

(** The node holds a mapping and nothing new has come in. *)
Definition sim_quiet : Simcharts.state (H := sim_middleware) :=
  Simcharts.mkState (H := sim_middleware)
    (Simcharts.mkEnc (H := sim_middleware) (vessels [3]) None 1%float [])
    (mkWorld [] ∅ 0%float []).

(** A coast line with a polygon that has lost its rings. *)
Definition broken_coast : Simcharts.coordinates :=
  [ [ [ [0; 0]; [4; 0]; [4; 4]; [0; 0] ] ]; [] ]%float.

Definition sim_broken : Simcharts.state (H := sim_middleware) :=
  Simcharts.mkState (H := sim_middleware)
    (Simcharts.mkEnc (H := sim_middleware) ∅ None 1%float broken_coast)
    (mkWorld [] ∅ 42%float []).

(** The frame and the state in which the loop is entered from
    [sim_start]. *)
Definition sim_entered : Simcharts.locals * Simcharts.state (H := sim_middleware) :=
  match Simcharts.start_sim (H := sim_middleware) 0 tt 0%float sim_start with
  | Simcharts.Running l s => (l, s)
  | _ => (Simcharts.mkLocals 0 0 0 0, sim_start)
  end.

(** A library that is particular: the parser wants a region name, the
    update a flag, and the surface layer depth bins. A parser is its bounding
    box with the depth bins. *)
Definition strict_library : Seacharts.Library := {|
  Seacharts.parser := value * value;
  Seacharts.layer := Seacharts.layer_class * value;
  Seacharts.feature := string;
  Seacharts.features := fun x => [Seacharts.__name__ x];
  Seacharts.Parser := fun bounding_box region depths =>
    match region with
    | VStr _ => inr (bounding_box, depths)
    | _ => inl "no such region"
    end;
  Seacharts.update_charts_data := fun p _ new_data =>
    match new_data with
    | VBool _ => inr p
    | _ => inl "not a flag"
    end;
  Seacharts.new_layer := fun x p =>
    match x, snd p with
    | Seacharts.Surface, VNone => inl "no depth bins"
    | _, _ => inr (x, fst p)
    end;
  Seacharts.object_attr := fun name => bool_decide (name ∈ object_names);
  Seacharts.object_attr_dunder := object_names_dunder
|}.

(** The frame and the state after the first pass through the loop. *)
Definition sim_first_pass
  : Simcharts.locals * Simcharts.state (H := sim_middleware) :=
  match Simcharts.loop_body (H := sim_middleware) (fst sim_entered)
          (snd sim_entered) with
  | (Ok l, s) => (l, s)
  | (Err _, s) => (fst sim_entered, s)
  end.

Definition sim_island : Simcharts.state (H := sim_middleware) :=
  Simcharts.mkState (H := sim_middleware)
    (Simcharts.mkEnc (H := sim_middleware) ∅ None 1%float island)
    (mkWorld [] ∅ 42%float []).

End Samples.

(* ===================================================================== *)
(** ** Running a monadic program                                         *)
(* ===================================================================== *)

Module Run.

Lemma bind_run {S A B} (m : M S A) (f : A -> M S B) (s : S) :
  (m ≫= f) s
  = match m s with
    | (Ok a, s') => f a s'
    | (Err e, s') => (Err e, s')
    end.
Proof. reflexivity. Qed.

Lemma bind_ok {S A B} (m : M S A) (f : A -> M S B) (s s' : S) (a : A) :
  m s = (Ok a, s') -> (m ≫= f) s = f a s'.
Proof. intros Hm. rewrite bind_run, Hm. reflexivity. Qed.

Lemma bind_err {S A B} (m : M S A) (f : A -> M S B) (s s' : S) (e : exn) :
  m s = (Err e, s') -> (m ≫= f) s = (Err e, s').
Proof. intros Hm. rewrite bind_run, Hm. reflexivity. Qed.

End Run.

(* ===================================================================== *)
(** ** Letter case                                                       *)
(* ===================================================================== *)

Module TextFacts.

Lemma lower_upper (c : ascii) : lower (upper c) = lower c.
Proof. destruct c as [[] [] [] [] [] [] [] []]; reflexivity. Qed.

Lemma upper_lower (c : ascii) : upper (lower c) = upper c.
Proof. destruct c as [[] [] [] [] [] [] [] []]; reflexivity. Qed.

Lemma ascii_not_long_s (c c' : ascii) :
  is_ascii c = true -> is_long_s c c' = false.
Proof.
  unfold is_long_s. intros Hc.
  destruct c as [[] [] [] [] [] [] [] []]; try discriminate; reflexivity.
Qed.

(** On ASCII strings: first character upper-cased, the others
    lower-cased. *)
Lemma capitalize_ascii (c : ascii) (s' : string) :
  str_is_ascii (String c s') = true ->
  capitalize (String c s') = String (upper c) (str_lower s').
Proof.
  cbn [str_is_ascii]. intros [Hc _]%andb_true_iff. cbn [capitalize].
  destruct s' as [|c' s'']; [reflexivity|].
  by rewrite (ascii_not_long_s c c' Hc).
Qed.

Lemma capitalize_eq_iff (s t : string) :
  str_is_ascii s = true -> str_is_ascii t = true ->
  capitalize s = capitalize t <-> case_variant s t.
Proof.
  unfold case_variant. intros Hs Ht.
  destruct s as [|c s'], t as [|c' t'];
    rewrite ?capitalize_ascii by assumption; cbn [capitalize str_lower];
    try (split; [reflexivity || discriminate | reflexivity || discriminate]).
  split; intros Heq; injection Heq as Hc Hrest; f_equal; try assumption.
  - rewrite <- (lower_upper c), <- (lower_upper c'). by rewrite Hc.
  - rewrite <- (upper_lower c), <- (upper_lower c'). by rewrite Hc.
Qed.

End TextFacts.

(* ===================================================================== *)
(** ** Properties of the chart ENC                                       *)
(* ===================================================================== *)

Module ChartFacts.
Import Seacharts.

Section Facts.

Context `{Library}.

Lemma is_pair_spec (v : value) : is_pair v = true <-> two_tuple v.
Proof.
  split.
  - destruct v as [| | | | |items|]; try discriminate.
    unfold is_pair; cbn [is_tuple len andb].
    intros Hc%Z.eqb_eq.
    destruct items as [|a [|b [|c rest]]]; cbn [length] in Hc; try lia.
    exists a, b. reflexivity.
  - intros (a & b & ->). reflexivity.
Qed.

Lemma is_pair_false (v : value) : is_pair v = false <-> ~ two_tuple v.
Proof.
  rewrite <- is_pair_spec. destruct (is_pair v); split; intros; congruence.
Qed.

Lemma not_property (name : string) :
  bool_decide (name ∈ properties) = false -> name ∉ properties.
Proof. apply bool_decide_eq_false. Qed.

Lemma getattr_instance (obj : gmap string attr) (name : string) (a : attr) :
  name ∉ properties -> obj !! name = Some a -> getattr obj name = Ok a.
Proof.
  intros Hp Hl. unfold getattr. cbn [getattribute].
  rewrite bool_decide_eq_false_2 by assumption. rewrite Hl. reflexivity.
Qed.

Lemma load_instance (name : string) (a : attr) (s : state) :
  name ∉ properties -> self s !! name = Some a -> load name s = (Ok a, s).
Proof.
  intros Hp Hl. unfold load. rewrite (getattr_instance _ _ a Hp Hl). reflexivity.
Qed.

Lemma load_items_tuple (name : string) (l : list value) (s : state) :
  bool_decide (name ∈ properties) = false ->
  self s !! name = Some (AVal (VTuple l)) ->
  load_items name s = (Ok l, s).
Proof.
  intros Hp Hl. unfold load_items.
  rewrite (Run.bind_ok _ _ s s (AVal (VTuple l))).
  - reflexivity.
  - apply load_instance; [apply not_property, Hp | exact Hl].
Qed.

Lemma load_parser_run (p : parser) (s : state) :
  self s !! "parser" = Some (AParser p) -> load_parser s = (Ok p, s).
Proof.
  intros Hl. unfold load_parser.
  rewrite (Run.bind_ok _ _ s s (AParser p)).
  - reflexivity.
  - apply load_instance; [apply not_property; reflexivity | exact Hl].
Qed.

Lemma check_origin_pass (origin : value) (s : state) :
  is_pair origin = true ->
  check_origin origin s
  = (Ok tt, mkState (<["origin" := AVal origin]> (self s)) (calls s)).
Proof. intros Ho. unfold check_origin. rewrite Ho. reflexivity. Qed.

Lemma check_origin_fail (origin : value) (s : state) :
  is_pair origin = false ->
  check_origin origin s = (Err (Raise TypeError origin_message), s).
Proof. intros Ho. unfold check_origin. rewrite Ho. reflexivity. Qed.

Lemma check_window_size_pass (window_size : value) (s : state) :
  is_pair window_size = true ->
  check_window_size window_size s
  = (Ok tt, mkState (<["window_size" := AVal window_size]> (self s)) (calls s)).
Proof. intros Hw. unfold check_window_size. rewrite Hw. reflexivity. Qed.

Lemma check_window_size_fail (window_size : value) (s : state) :
  is_pair window_size = false ->
  check_window_size window_size s = (Err (Raise TypeError window_message), s).
Proof. intros Hw. unfold check_window_size. rewrite Hw. reflexivity. Qed.

(** The corner sums of two pairs. *)
Lemma make_bounding_box_run (e n w h : value) (s : state) :
  self s !! "origin" = Some (AVal (VTuple [e; n])) ->
  self s !! "window_size" = Some (AVal (VTuple [w; h])) ->
  make_bounding_box s
  = (x ← add e w; y ← add n h; Ok (VTuple [e; n; x; y]), s).
Proof.
  intros Ho Hw. unfold make_bounding_box.
  rewrite (Run.bind_ok _ _ s s [e; n]) by (apply load_items_tuple; done).
  rewrite (Run.bind_ok _ _ s s [w; h]) by (apply load_items_tuple; done).
  rewrite (Run.bind_ok _ _ s s [e; n]) by (apply load_items_tuple; done).
  rewrite Run.bind_run. unfold lift. cbn [zip_with sums].
  destruct (add e w) as [x|ex]; [|reflexivity].
  destruct (add n h) as [y|ex]; reflexivity.
Qed.

Lemma build_layers_run (xs : list layer_class) :
  forall (acc : gmap string layer) (p : parser) (s : state),
    self s !! "parser" = Some (AParser p) ->
    exists ys,
      snd (build_layers xs acc s)
      = mkState (self s) (calls s ++ map CallLayer ys)
      /\ match fst (build_layers xs acc s) with
         | Ok ls => made p xs acc = Some ls
         | Err e => exists what, e = Foreign what
         end.
Proof.
  induction xs as [|x rest IH]; intros acc p s Hp.
  - exists []. cbn. rewrite app_nil_r. destruct s; split; reflexivity.
  - cbn [build_layers made].
    rewrite (Run.bind_ok _ _ s s p) by (apply load_parser_run, Hp).
    rewrite Run.bind_run. unfold external.
    destruct (new_layer x p) as [what|l]; cbn [from_library].
    + exists [x]. cbn. split; [reflexivity | eauto].
    + destruct (IH (<[__name__ x := l]> acc) p
                  (mkState (self s) (calls s ++ [CallLayer x])) Hp)
        as (ys & Hs & Hr).
      exists (x :: ys). rewrite Hs. cbn [self calls map].
      rewrite <- app_assoc. split; [reflexivity | exact Hr].
Qed.

Lemma layer_calls_not_parser (ys : list layer_class) :
  forallb (fun c => negb (is_parser_call c)) (map CallLayer ys) = true.
Proof. induction ys; [reflexivity | assumption]. Qed.

Lemma make_parser_run (bounding_box region depths : value) (s : state) :
  make_parser bounding_box region depths s
  = let cs := (calls s ++ [CallParser bounding_box region depths])%list in
    match Parser bounding_box region depths with
    | inl what => (Err (Foreign what), mkState (self s) cs)
    | inr p => (Ok tt, mkState (<["parser" := AParser p]> (self s)) cs)
    end.
Proof.
  unfold make_parser. rewrite Run.bind_run. unfold external.
  destruct (Parser bounding_box region depths); reflexivity.
Qed.

Lemma update_parser_run (p : parser) (new_data : value) (s : state) :
  self s !! "parser" = Some (AParser p) ->
  update_parser new_data s
  = let cs := (calls s ++ [CallUpdateChartsData _features new_data])%list in
    match update_charts_data p _features new_data with
    | inl what => (Err (Foreign what), mkState (self s) cs)
    | inr p' => (Ok tt, mkState (<["parser" := AParser p']> (self s)) cs)
    end.
Proof.
  intros Hp. unfold update_parser.
  rewrite (Run.bind_ok _ _ s s p (load_parser_run p s Hp)).
  rewrite Run.bind_run. unfold external.
  destruct (update_charts_data p _features new_data); reflexivity.
Qed.

(** What a construction from two pairs does, from the additions on. *)
Lemma init_pairs (e n w h region depths new_data : value) (s s' : state)
    (r : result unit) :
  __init__ (VTuple [e; n]) (VTuple [w; h]) region depths new_data s = (r, s') ->
  let d := checked (VTuple [e; n]) (VTuple [w; h]) (self s) in
  match x ← add e w; y ← add n h; Ok (VTuple [e; n; x; y]) with
  | Err ex => r = Err ex /\ s' = mkState d (calls s)
  | Ok bounding_box =>
      exists later : list call,
        calls s' = (calls s ++ CallParser bounding_box region depths :: later)%list
        /\ forallb (fun c => negb (is_parser_call c)) later = true
        /\ match r with
           | Err ex => exists what, ex = Foreign what
           | Ok _ =>
               exists p p' ls,
                 Parser bounding_box region depths = inr p
                 /\ update_charts_data p _features new_data = inr p'
                 /\ made p' _layers ∅ = Some ls
                 /\ self s'
                    = <["layers" := ALayers ls]>
                        (<["parser" := AParser p']>
                           (<["parser" := AParser p]> d))
           end
  end.
Proof.
  intros Hrun d.
  set (s2 := mkState d (calls s)).
  assert (Ho : self s2 !! "origin" = Some (AVal (VTuple [e; n]))).
  { cbn [self s2]. unfold d, checked. by simplify_map_eq. }
  assert (Hw : self s2 !! "window_size" = Some (AVal (VTuple [w; h]))).
  { cbn [self s2]. unfold d, checked. by simplify_map_eq. }
  unfold __init__ in Hrun.
  rewrite (Run.bind_ok _ _ _ _ _ (check_origin_pass (VTuple [e; n]) s eq_refl))
    in Hrun.
  rewrite (Run.bind_ok _ _ _ _ _
             (check_window_size_pass (VTuple [w; h]) _ eq_refl)) in Hrun.
  cbn [self calls] in Hrun.
  change (mkState (<["window_size" := _]> _) (calls s)) with s2 in Hrun.
  rewrite Run.bind_run, (make_bounding_box_run e n w h s2 Ho Hw) in Hrun.
  destruct (x ← add e w; y ← add n h; Ok (VTuple [e; n; x; y]))
    as [bounding_box|ex]; [|by inversion Hrun].
  rewrite Run.bind_run, make_parser_run in Hrun. cbv zeta in Hrun.
  destruct (Parser bounding_box region depths) as [what|p] eqn:HP.
  { inversion Hrun; subst. exists []. cbn. repeat split; eauto. }
  rewrite Run.bind_run, (update_parser_run p) in Hrun
    by (cbn [self]; by simplify_map_eq).
  cbv zeta in Hrun. cbn [self calls] in Hrun.
  destruct (update_charts_data p _features new_data) as [what|p'] eqn:HU.
  { inversion Hrun; subst.
    exists [CallUpdateChartsData _features new_data].
    cbn [self calls s2 forallb is_parser_call negb andb].
    rewrite <- app_assoc. repeat split; eauto. }
  rewrite Run.bind_run in Hrun.
  match type of Hrun with
  | context [build_layers _layers ∅ ?s3] =>
      destruct (build_layers_run _layers ∅ p' s3) as (ys & Hs & Hr);
        [cbn [self]; by simplify_map_eq|];
      destruct (build_layers _layers ∅ s3) as [[ls|ex] s4];
        cbn [fst snd] in Hs, Hr; subst s4
  end.
  - inversion Hrun; subst.
    exists (CallUpdateChartsData _features new_data :: map CallLayer ys).
    cbn [self calls s2 forallb is_parser_call negb andb].
    rewrite <- !app_assoc. split; [reflexivity|].
    split; [apply layer_calls_not_parser|].
    exists p, p', ls. repeat split; try assumption; reflexivity.
  - inversion Hrun; subst.
    exists (CallUpdateChartsData _features new_data :: map CallLayer ys).
    cbn [self calls s2 forallb is_parser_call negb andb].
    rewrite <- !app_assoc. split; [reflexivity|].
    split; [apply layer_calls_not_parser | exact Hr].
Qed.

Lemma made_layers (p : parser) (ls : gmap string layer) :
  made p _layers ∅ = Some ls ->
  (forall x, exists l, new_layer x p = inr l /\ ls !! __name__ x = Some l)
  /\ (forall key, (forall x, key <> __name__ x) -> ls !! key = None).
Proof.
  unfold _layers. cbn [made].
  destruct (new_layer Ocean p) as [|lo] eqn:Ho; [discriminate|].
  destruct (new_layer Surface p) as [|lsf] eqn:Hs; [discriminate|].
  destruct (new_layer Details p) as [|ld] eqn:Hd; [discriminate|].
  intros [= <-]. split.
  - intros [].
    + exists lo. split; [assumption|]. by simplify_map_eq.
    + exists lsf. split; [assumption|]. by simplify_map_eq.
    + exists ld. split; [assumption|]. by simplify_map_eq.
  - intros key Hkey.
    pose proof (Hkey Ocean). pose proof (Hkey Surface). pose proof (Hkey Details).
    cbn [__name__] in *. by simplify_map_eq.
Qed.

(** What a successful construction returns. *)
Lemma ENC_ok (origin window_size region depths new_data : value)
    (obj : gmap string attr) (trace : list call) :
  ENC origin window_size region depths new_data = (Ok obj, trace) ->
  exists p ls,
    obj = <["layers" := ALayers ls]>
            (<["parser" := AParser p]> (checked origin window_size ∅))
    /\ made p _layers ∅ = Some ls
    /\ two_tuple origin /\ two_tuple window_size.
Proof.
  unfold ENC.
  destruct (__init__ origin window_size region depths new_data (mkState ∅ []))
    as [[[]|ex] s'] eqn:Hrun; [|discriminate].
  intros [= <- <-].
  destruct (is_pair origin) eqn:Ho.
  2:{ unfold __init__ in Hrun.
      rewrite (Run.bind_err _ _ _ _ _ (check_origin_fail _ _ Ho)) in Hrun.
      discriminate. }
  destruct (is_pair window_size) eqn:Hw.
  2:{ unfold __init__ in Hrun.
      rewrite (Run.bind_ok _ _ _ _ _ (check_origin_pass _ _ Ho)) in Hrun.
      rewrite (Run.bind_err _ _ _ _ _ (check_window_size_fail _ _ Hw)) in Hrun.
      discriminate. }
  apply is_pair_spec in Ho as Ho'. apply is_pair_spec in Hw as Hw'.
  destruct Ho' as (e & n & ->), Hw' as (w & h & ->).
  apply init_pairs in Hrun. cbv zeta in Hrun.
  destruct (x ← add e w; y ← add n h; Ok (VTuple [e; n; x; y]))
    as [bounding_box|ex]; [|destruct Hrun; discriminate].
  destruct Hrun as (later & _ & _ & p & p' & ls & _ & _ & Hmade & Hself).
  exists p', ls. rewrite Hself. cbn [self].
  rewrite insert_insert_eq.
  repeat split; try assumption; unfold two_tuple; eauto.
Qed.

Lemma add_error (a b : value) (ex : exn) :
  add a b = Err ex -> exists k msg, ex = Builtin k msg.
Proof.
  destruct a, b; cbn [add]; try discriminate;
    try (intros [= <-]; eauto);
    unfold float_of_int;
    match goal with
    | |- context [PrimFloat.is_infinity ?f] =>
        destruct (PrimFloat.is_infinity f)
    end; cbn; try discriminate; intros [= <-]; eauto.
Qed.

Lemma init_raises_iff (origin window_size region depths new_data : value)
    (s s' : state) (r : result unit) :
  __init__ origin window_size region depths new_data s = (r, s') ->
  (is_pair origin = false ->
     r = Err (Raise TypeError origin_message) /\ s' = s)
  /\ (is_pair origin = true -> is_pair window_size = false ->
       r = Err (Raise TypeError window_message)
       /\ s' = mkState (<["origin" := AVal origin]> (self s)) (calls s))
  /\ (is_pair origin = true -> is_pair window_size = true ->
       forall k msg, r <> Err (Raise k msg)).
Proof.
  intros Hrun. split; [|split].
  - intros Ho. unfold __init__ in Hrun.
    rewrite (Run.bind_err _ _ _ _ _ (check_origin_fail _ _ Ho)) in Hrun.
    split; congruence.
  - intros Ho Hw. unfold __init__ in Hrun.
    rewrite (Run.bind_ok _ _ _ _ _ (check_origin_pass _ _ Ho)) in Hrun.
    rewrite (Run.bind_err _ _ _ _ _ (check_window_size_fail _ _ Hw)) in Hrun.
    split; congruence.
  - intros Ho Hw k msg ->.
    apply is_pair_spec in Ho as (e & n & ->).
    apply is_pair_spec in Hw as (w & h & ->).
    apply init_pairs in Hrun. cbv zeta in Hrun.
    destruct (add e w) as [x|ex] eqn:Hx; cbn in Hrun.
    2:{ destruct Hrun as [[= <-] _].
        apply add_error in Hx as (k' & msg' & [=]). }
    destruct (add n h) as [y|ex] eqn:Hy; cbn in Hrun.
    2:{ destruct Hrun as [[= <-] _].
        apply add_error in Hy as (k' & msg' & [=]). }
    destruct Hrun as (_ & _ & _ & what & [=]).
Qed.

(** C2: for an origin [(e, n)] and a window size [(w, h)] the parser is
    called exactly once in a construction, with the bounding box
    [(e, n, e + w, n + h)]; when one of the two additions fails nothing is
    called at all. The object that is returned has the four attributes
    [origin], [window_size], [parser] and [layers], with the two tuples as
    they were passed: the box is a local tuple of the constructor and no
    attribute holds it. *)
Theorem bounding_box_passed_to_parser
    (e n w h region depths new_data : value) :
  let run := ENC (VTuple [e; n]) (VTuple [w; h]) region depths new_data in
  match add e w, add n h with
  | Ok x, Ok y =>
      List.filter is_parser_call (snd run)
      = [CallParser (VTuple [e; n; x; y]) region depths]
  | _, _ => snd run = []
  end
  /\ forall obj, fst run = Ok obj ->
       dom obj = {["origin"; "window_size"; "parser"; "layers"]}
       /\ obj !! "origin" = Some (AVal (VTuple [e; n]))
       /\ obj !! "window_size" = Some (AVal (VTuple [w; h])).
Proof.
  intros run. split.
  - subst run. unfold ENC.
    destruct (__init__ (VTuple [e; n]) (VTuple [w; h]) region depths new_data
                (mkState ∅ [])) as [r s'] eqn:Hrun.
    apply init_pairs in Hrun. cbv zeta in Hrun. cbn [calls self] in Hrun.
    assert (Hsnd : (match r with
                    | Ok _ => (Ok (self s'), calls s')
                    | Err ex => (Err ex, calls s')
                    end).2 = calls s') by (destruct r; reflexivity).
    rewrite Hsnd. clear Hsnd.
    destruct (add e w) as [x|ex]; cbn in Hrun.
    2:{ destruct Hrun as [_ ->]. reflexivity. }
    destruct (add n h) as [y|ex]; cbn in Hrun.
    2:{ destruct Hrun as [_ ->]. reflexivity. }
    destruct Hrun as (later & -> & Hlater & _).
    cbn [List.filter is_parser_call]. f_equal.
    clear -Hlater. induction later as [|c later IH]; [reflexivity|].
    cbn [forallb] in Hlater. apply andb_true_iff in Hlater as [Hc Hl].
    cbn [List.filter]. destruct (is_parser_call c); [discriminate|].
    apply IH, Hl.
  - intros obj Hobj.
    destruct run as [r trace] eqn:Hrun. cbn [fst] in Hobj. subst r.
    apply ENC_ok in Hrun as (p & ls & -> & _).
    unfold checked. split; [|split]; [| by simplify_map_eq..].
    rewrite !dom_insert_L, dom_empty_L. set_solver.
Qed.

(** C5: a construction whose origin or window size is not a tuple of length
    two ends in a [TypeError] raised by the constructor before any call into
    the parser or the layers has been made; in every other construction no
    exception comes from a [raise] statement of the class (what can come out
    is an exception of the [+] operator or of the libraries called). *)
Theorem malformed_arguments_raise_first
    (origin window_size region depths new_data : value)
    (s s' : state) (r : result unit) :
  __init__ origin window_size region depths new_data s = (r, s') ->
  (~ (two_tuple origin /\ two_tuple window_size) ->
     (exists msg, r = Err (Raise TypeError msg)) /\ calls s' = calls s)
  /\ (two_tuple origin /\ two_tuple window_size ->
       forall k msg, r <> Err (Raise k msg)).
Proof.
  intros Hrun.
  destruct (init_raises_iff _ _ _ _ _ _ _ _ Hrun) as (Hbad_o & Hbad_w & Hgood).
  split.
  - intros Hnot.
    destruct (is_pair origin) eqn:Ho.
    + destruct (is_pair window_size) eqn:Hw.
      * exfalso. apply Hnot. split; by apply is_pair_spec.
      * destruct (Hbad_w eq_refl eq_refl) as [-> ->]. eauto.
    + destruct (Hbad_o eq_refl) as [-> ->]. eauto.
  - intros [Ho Hw]. apply Hgood; by apply is_pair_spec.
Qed.

(** C6, as amended: when the constructor raises for a malformed origin no
    attribute has been assigned; when it raises for a malformed window size
    the origin, which had passed its check, has been assigned and nothing
    else; in both cases the constructor expression yields no object. *)
Theorem failed_construction_state
    (origin window_size region depths new_data : value)
    (s s' : state) (r : result unit) :
  __init__ origin window_size region depths new_data s = (r, s') ->
  ~ (two_tuple origin /\ two_tuple window_size) ->
  (~ two_tuple origin -> self s' = self s)
  /\ (two_tuple origin -> self s' = <["origin" := AVal origin]> (self s))
  /\ exists ex, fst (ENC origin window_size region depths new_data) = Err ex.
Proof.
  intros Hrun Hnot.
  destruct (init_raises_iff _ _ _ _ _ _ _ _ Hrun) as (Hbad_o & Hbad_w & _).
  split; [|split].
  - intros Ho%is_pair_false. by destruct (Hbad_o Ho) as [_ ->].
  - intros Ho. assert (Hw : is_pair window_size = false).
    { apply is_pair_false. tauto. }
    apply is_pair_spec in Ho. by destruct (Hbad_w Ho Hw) as [_ ->].
  - destruct (ENC origin window_size region depths new_data) as [[obj|ex] tr]
      eqn:Henc; [|eauto].
    apply ENC_ok in Henc as (_ & _ & _ & _ & Ho & Hw). tauto.
Qed.

(** C4, as amended: on a constructed chart, for an ASCII string [name]: if
    [name] is a case variant of the name of layer class [x], then indexing
    with [name] and reading the attribute [name] both return the layer [x]
    built from the parser of the chart; if [name] is a case variant of none
    of the three names, indexing raises a [KeyError] (for the capitalised
    name). Outside ASCII this is not so: a name written with U+017F can
    reach the surface layer. *)
Theorem layer_lookup_ignores_case
    (origin window_size region depths new_data : value)
    (obj : gmap string attr) (trace : list call) (name : string) :
  ENC origin window_size region depths new_data = (Ok obj, trace) ->
  str_is_ascii name = true ->
  (forall x, case_variant name (__name__ x) ->
     exists p l,
       obj !! "parser" = Some (AParser p) /\ new_layer x p = inr l
       /\ __getitem__ obj (VStr name) = Ok (ALayer l)
       /\ getattr obj name = Ok (ALayer l))
  /\ ((forall x, ~ case_variant name (__name__ x)) ->
      __getitem__ obj (VStr name) = Err (Builtin KeyError (capitalize name))).
Proof.
  intros Henc Hascii.
  assert (Hnames : forall x, str_is_ascii (__name__ x) = true)
    by (by intros []).
  apply ENC_ok in Henc as (p & ls & -> & Hmade & _).
  apply made_layers in Hmade as [Hin Hout].
  assert (Hitem : forall item,
            __getitem__ (<["layers" := ALayers ls]>
                           (<["parser" := AParser p]>
                              (checked origin window_size ∅))) item
            = key ← call_capitalize item; subscript (ALayers ls) key).
  { intros item. unfold __getitem__.
    change (getattribute recursion_limit) with (getattribute 1000).
    cbn [getattribute Init.Nat.of_num_uint].
    rewrite bool_decide_eq_false_2 by (by apply not_property).
    by simplify_map_eq. }
  split.
  - intros x Hx. destruct (Hin x) as (l & Hl & Hls).
    apply TextFacts.capitalize_eq_iff in Hx; [|by auto..].
    assert (Hcap : capitalize name = __name__ x) by (rewrite Hx; by destruct x).
    exists p, l. split; [by simplify_map_eq|]. split; [assumption|].
    assert (Hget : __getitem__ (<["layers" := ALayers ls]>
                           (<["parser" := AParser p]>
                              (checked origin window_size ∅))) (VStr name)
                   = Ok (ALayer l)).
    { rewrite Hitem. cbn [call_capitalize mbind result_bind subscript].
      by rewrite Hcap, Hls. }
    split; [exact Hget|].
    unfold getattr. cbn [getattribute].
    assert (Hne : forall t, capitalize t <> __name__ x -> name <> t)
      by (intros t Ht ->; contradiction).
    rewrite bool_decide_eq_false_2.
    2:{ unfold properties. rewrite !elem_of_cons, elem_of_nil.
        intros [?|[?|[]]]; (eapply Hne; [|eassumption]); by destruct x. }
    unfold checked.
    rewrite !lookup_insert_ne, lookup_empty
      by (apply not_eq_sym, Hne; by destruct x).
    fold (checked origin window_size ∅).
    assert (Hcls : in_class name = false).
    { unfold in_class. apply orb_false_iff. split.
      - apply bool_decide_eq_false.
        unfold class_attrs. rewrite !elem_of_cons, elem_of_nil.
        intros Hor. repeat destruct Hor as [Hor|Hor]; try done;
          (eapply Hne; [|eassumption]); by destruct x.
      - destruct (object_attr name) eqn:Hobj; [|reflexivity].
        apply object_attr_dunder in Hobj.
        destruct name as [|c name']; [discriminate|].
        rewrite TextFacts.capitalize_ascii in Hcap by assumption.
        destruct x; injection Hcap as Hc _;
          destruct c as [[] [] [] [] [] [] [] []]; discriminate. }
    rewrite Hcls. exact Hget.
  - intros Hnone. rewrite Hitem.
    cbn [call_capitalize mbind result_bind subscript].
    rewrite Hout; [reflexivity|].
    intros x Hx. apply (Hnone x). apply TextFacts.capitalize_eq_iff;
      [by auto..|].
    rewrite Hx. by destruct x.
Qed.

(** C10: on a constructed chart, reading an ASCII attribute name that
    neither the instance nor the class nor [object] defines goes through
    [__getattr__] to [__getitem__]; when the capitalised name is not the name
    of a layer class the access raises the [KeyError] of the dictionary
    lookup, and in no case an [AttributeError]. *)
Theorem unknown_attribute_is_key_error
    (origin window_size region depths new_data : value)
    (obj : gmap string attr) (trace : list call) (name : string) :
  ENC origin window_size region depths new_data = (Ok obj, trace) ->
  obj !! name = None ->
  in_class name = false ->
  str_is_ascii name = true ->
  getattr obj name = __getattr__ obj name
  /\ __getattr__ obj name = __getitem__ obj (VStr name)
  /\ ((forall x, capitalize name <> __name__ x) ->
      getattr obj name = Err (Builtin KeyError (capitalize name)))
  /\ (forall msg,
        getattr obj name <> Err (Builtin AttributeError msg)
        /\ getattr obj name <> Err (Raise AttributeError msg)).
Proof.
  intros Henc Hinst Hcls _.
  assert (Hprop : name ∉ properties).
  { intros Hin. unfold in_class in Hcls. apply orb_false_iff in Hcls as [Hc _].
    apply bool_decide_eq_false in Hc. apply Hc.
    unfold properties in Hin. unfold class_attrs.
    apply elem_of_cons in Hin as [->|Hin]; [set_solver|].
    apply elem_of_cons in Hin as [->|Hin]; [set_solver|].
    by apply elem_of_nil in Hin. }
  assert (Hget : getattr obj name = __getattr__ obj name).
  { unfold getattr. cbn [getattribute].
    rewrite bool_decide_eq_false_2 by assumption.
    rewrite Hinst, Hcls. reflexivity. }
  split; [exact Hget|]. split; [reflexivity|].
  rewrite Hget. unfold __getattr__.
  apply ENC_ok in Henc as (p & ls & -> & Hmade & _).
  apply made_layers in Hmade as [Hin Hout].
  assert (Hitem : __getitem__ (<["layers" := ALayers ls]>
                           (<["parser" := AParser p]>
                              (checked origin window_size ∅))) (VStr name)
            = subscript (ALayers ls) (capitalize name)).
  { unfold __getitem__.
    change (getattribute recursion_limit) with (getattribute 1000).
    cbn [getattribute Init.Nat.of_num_uint].
    rewrite bool_decide_eq_false_2 by (by apply not_property).
    by simplify_map_eq. }
  rewrite Hitem. cbn [subscript]. split.
  - intros Hnone. by rewrite (Hout _ Hnone).
  - intros msg. destruct (ls !! capitalize name); split; discriminate.
Qed.

End Facts.

(** The constructor run on a window size of length one: the error is
    raised and [origin] is an attribute of the object all the same. *)
Lemma origin_assigned_before_window_error :
  let run :=
    __init__ (H := Samples.chart_library) default_origin
      (VTuple [VInt 20000]) VNone VNone (VBool false) (mkState ∅ []) in
  fst run = Err (Raise TypeError window_message)
  /\ self (snd run) !! "origin" = Some (AVal default_origin)
  /\ self (snd run) <> ∅.
Proof.
  cbv zeta. split; [vm_compute; reflexivity|].
  assert (Hl : self (snd (__init__ (H := Samples.chart_library) default_origin
      (VTuple [VInt 20000]) VNone VNone (VBool false) (mkState ∅ [])))
               !! "origin" = Some (AVal default_origin))
    by (vm_compute; reflexivity).
  split; [exact Hl|].
  intros Hempty. rewrite Hempty, lookup_empty in Hl. discriminate.
Qed.

Example default_bounding_box :
  List.filter is_parser_call (snd Samples.chart_run)
  = [CallParser (H := Samples.chart_library)
       (VTuple [VInt 38100; VInt 6948700; VInt 58100; VInt 6964700])
       VNone VNone].
Proof. reflexivity. Qed.

(** The name of the surface layer written with a long s (U+017F) is no
    case variant of a layer name, and [capitalize] makes it [Surface] all the
    same: indexing returns the surface layer, no [KeyError]. With the long s
    at the end of [details] the name stays what it is and is refused. *)
Lemma long_s_reaches_the_surface_layer :
  str_is_modelled (long_s ++ "urface")%string = true
  /\ (forall x, ~ case_variant (long_s ++ "urface")%string (__name__ x))
  /\ (exists p l,
        Samples.chart !! "parser" = Some (AParser p)
        /\ new_layer (Library := Samples.chart_library) Surface p = inr l
        /\ __getitem__ Samples.chart (VStr (long_s ++ "urface")%string)
           = Ok (ALayer l))
  /\ (forall key,
        __getitem__ Samples.chart (VStr (long_s ++ "urface")%string)
        <> Err (Builtin KeyError key))
  /\ __getitem__ Samples.chart (VStr ("detail" ++ long_s)%string)
     = Err (Builtin KeyError ("Detail" ++ long_s)%string).
Proof.
  split; [reflexivity|]. split; [intros []; discriminate|].
  assert (Hget : __getitem__ Samples.chart (VStr (long_s ++ "urface")%string)
                 = Ok (ALayer (H := Samples.chart_library)
                         (Surface,
                          VTuple [VInt 38100; VInt 6948700;
                                  VInt 58100; VInt 6964700])))
    by (vm_compute; reflexivity).
  split; [|split].
  - eexists _, _. split; [vm_compute; reflexivity|].
    split; [reflexivity | exact Hget].
  - intros key. rewrite Hget. discriminate.
  - vm_compute. reflexivity.
Qed.

Lemma malformed_arguments_raise_first_witness :
  ((exists msg, @Err unit (Raise TypeError origin_message)
                = Err (Raise TypeError msg))
   /\ calls (H := Samples.chart_library) (mkState ∅ [])
      = calls (mkState ∅ []))
  /\ (forall k msg,
        fst (__init__ (H := Samples.chart_library) default_origin
               default_window_size VNone VNone (VBool false) (mkState ∅ []))
        <> Err (Raise k msg)).
Proof.
  split.
  - apply (proj1 (malformed_arguments_raise_first (H := Samples.chart_library)
                    (VInt 5) default_window_size VNone VNone (VBool false)
                    (mkState ∅ []) (mkState ∅ []) _ eq_refl)).
    intros [(a & b & Hab) _]. discriminate Hab.
  - apply (proj2 (malformed_arguments_raise_first (H := Samples.chart_library)
                    default_origin default_window_size VNone VNone (VBool false)
                    (mkState ∅ []) _ _ (surjective_pairing _))).
    split; [exists (VInt 38100), (VInt 6948700) | exists (VInt 20000), (VInt 16000)];
      reflexivity.
Defined.

Lemma failed_construction_state_witness :
  self (H := Samples.chart_library)
    (snd (__init__ default_origin (VTuple [VInt 20000]) VNone VNone
            (VBool false) (mkState ∅ [])))
  = <["origin" := AVal default_origin]> ∅.
Proof.
  apply (failed_construction_state (H := Samples.chart_library)
           default_origin (VTuple [VInt 20000]) VNone VNone (VBool false)
           (mkState ∅ []) _ _ (surjective_pairing _)).
  - intros [_ (a & b & Hab)]. discriminate Hab.
  - exists (VInt 38100), (VInt 6948700). reflexivity.
Defined.

Lemma chart_constructed :
  ENC (H := Samples.chart_library) default_origin default_window_size
    VNone VNone (VBool false)
  = (Ok Samples.chart, snd Samples.chart_run).
Proof. reflexivity. Qed.

Lemma layer_lookup_ignores_case_witness :
  (exists p l,
     Samples.chart !! "parser" = Some (AParser p)
     /\ new_layer (Library := Samples.chart_library) Surface p = inr l
     /\ __getitem__ Samples.chart (VStr "sUrFaCe") = Ok (ALayer l)
     /\ getattr Samples.chart "sUrFaCe" = Ok (ALayer l))
  /\ __getitem__ Samples.chart (VStr "seabed")
     = Err (Builtin KeyError "Seabed").
Proof.
  split.
  - apply (proj1 (layer_lookup_ignores_case (H := Samples.chart_library)
                    _ _ _ _ _ _ _ "sUrFaCe" chart_constructed eq_refl) Surface).
    reflexivity.
  - apply (proj2 (layer_lookup_ignores_case (H := Samples.chart_library)
                    _ _ _ _ _ _ _ "seabed" chart_constructed eq_refl)).
    intros []; discriminate.
Defined.

Lemma unknown_attribute_is_key_error_witness :
  getattr Samples.chart "bounding_box" = Err (Builtin KeyError "Bounding_box").
Proof.
  apply (unknown_attribute_is_key_error (H := Samples.chart_library)
           _ _ _ _ _ _ _ "bounding_box" chart_constructed).
  - vm_compute. reflexivity.
  - vm_compute. reflexivity.
  - reflexivity.
  - intros []; discriminate.
Defined.

End ChartFacts.
(* ===================================================================== *)
(** ** Properties of the simulation ENC                                  *)
(* ===================================================================== *)

Module SimFacts.
Import Simcharts.

Section Facts.

Context `{Middleware}.

Lemma ext_run {A} (c : M world A) (s : state) :
  ext c s = (fst (c (outside s)), mkState (this s) (snd (c (outside s)))).
Proof. unfold ext. destruct (c (outside s)); reflexivity. Qed.

Lemma ext_ok {A} (c : M world A) (s : state) (a : A) (w : world) :
  c (outside s) = (Ok a, w) -> ext c s = (Ok a, mkState (this s) w).
Proof. intros Hc. rewrite ext_run, Hc. reflexivity. Qed.

(** *** The service handler *)

Lemma collect_points_spec (pol : ring) :
  forall points,
    Forall (fun p : position => (2 <= length p)%nat) pol ->
    exists new,
      collect_points pol points = Ok (points ++ new)
      /\ Forall2 pair_of pol new.
Proof.
  induction pol as [|p rest IH]; intros points Hwf.
  - exists []. rewrite app_nil_r. split; [reflexivity | constructor].
  - apply Forall_cons in Hwf as [Hp Hrest].
    destruct p as [|px [|py more]]; cbn [length] in Hp; try lia.
    destruct (IH (points ++ [mkPoint px py]) Hrest) as (new & Hrun & Hnew).
    exists (mkPoint px py :: new). split.
    + cbn [collect_points]. unfold index. cbn.
      rewrite Hrun, <- app_assoc. reflexivity.
    + constructor; [split; reflexivity | exact Hnew].
Qed.

Lemma collect_obstacles_spec (raw : list (list ring)) :
  forall obstacles,
    well_formed raw ->
    exists new,
      collect_obstacles raw obstacles = Ok (obstacles ++ new)
      /\ Forall2 outer_ring_of raw new.
Proof.
  induction raw as [|rings rest IH]; intros obstacles Hwf.
  - exists []. rewrite app_nil_r. split; [reflexivity | constructor].
  - apply Forall_cons in Hwf as [(outer & holes & -> & Houter) Hrest].
    destruct (collect_points_spec outer [] Houter) as (points & Hpts & Hpair).
    destruct (IH (obstacles ++ [mkPolygon points]) Hrest) as (new & Hrun & Hnew).
    exists (mkPolygon points :: new). split.
    + cbn [collect_obstacles]. unfold index. cbn.
      rewrite Hpts. cbn. rewrite Hrun, <- app_assoc. reflexivity.
    + constructor; [|exact Hnew]. exists outer, holes. split; [reflexivity|].
      exact Hpair.
Qed.

(** C1: when the coordinate representation of the land geometry is well
    formed and the logger and the clock answer, one call of the handler
    returns a response with exactly one polygon message per input polygon,
    in the same order, the points of the i-th message being the coordinate
    pairs of the outer ring of the i-th polygon in their order and nothing of
    its other rings; the timestamp of the response is what [getTimeStamp]
    makes of the clock of the node, and the node is left as it was. *)
Theorem static_obstacles_one_per_polygon {Request : Type}
    (request : Request) (response : Response) (s : state) :
  well_formed (land (this s)) ->
  service_calls_return ->
  exists resp s',
    _get_static_obstacles_callback request response s = (Ok resp, s')
    /\ this s' = this s
    /\ length (static_obstacles resp) = length (land (this s))
    /\ Forall2 outer_ring_of (land (this s)) (static_obstacles resp)
    /\ exists c ts w1 w2 w3,
         get_clock w1 = (Ok c, w2)
         /\ getTimeStamp c w2 = (Ok ts, w3)
         /\ timestamp resp = Some ts.
Proof.
  intros Hwf (Hdebug & Hclock & Hstamp).
  destruct (collect_obstacles_spec _ [] Hwf) as (obstacles & Hobs & Hrel).
  cbn [app] in Hobs.
  unfold _get_static_obstacles_callback.
  destruct (Hdebug "Sending Static Obstacles..." (outside s)) as ([] & w1 & Hd1).
  rewrite (Run.bind_ok _ _ _ _ _ (ext_ok _ _ _ _ Hd1)).
  rewrite (Run.bind_ok (self_get land) _ (mkState (this s) w1) _ _ eq_refl).
  cbn [this].
  rewrite (Run.bind_ok (lift _) _ _ _ obstacles)
    by (unfold lift; rewrite Hobs; reflexivity).
  destruct (Hclock w1) as (c1 & w2 & Hc1).
  rewrite (Run.bind_ok _ _ _ _ _ (ext_ok _ (mkState _ w1) _ _ Hc1)).
  destruct (Hclock w2) as (c2 & w3 & Hc2).
  rewrite (Run.bind_ok _ _ _ _ _ (ext_ok _ (mkState _ w2) _ _ Hc2)).
  destruct (Hdebug (clock_text c1 c2) w3) as ([] & w4 & Hd2).
  rewrite (Run.bind_ok _ _ _ _ _ (ext_ok _ (mkState _ w3) _ _ Hd2)).
  destruct (Hclock w4) as (c & w5 & Hc).
  rewrite (Run.bind_ok _ _ _ _ _ (ext_ok _ (mkState _ w4) _ _ Hc)).
  destruct (Hstamp c w5) as (ts & w6 & Hts).
  rewrite (Run.bind_ok _ _ _ _ _ (ext_ok _ (mkState _ w5) _ _ Hts)).
  destruct (Hdebug "Sent Static Obstacles..." w6) as ([] & w7 & Hd3).
  rewrite (Run.bind_ok _ _ _ _ _ (ext_ok _ (mkState _ w6) _ _ Hd3)).
  eexists _, _. split; [reflexivity|]. cbn [this static_obstacles timestamp].
  split; [reflexivity|]. split; [symmetry; eapply Forall2_length, Hrel|].
  split; [exact Hrel|]. exists c, ts, w4, w5, w6. auto.
Qed.

(** *** Traffic *)

Lemma updateLocalTraffic_run (s : state) :
  updateLocalTraffic s
  = match spin_once LocalTrafficSubscriber (executor (this s)) timeout_sec
            (outside s) with
    | (Err e, w1) => (Err e, mkState (this s) w1)
    | (Ok _, w1) =>
        match get_local_traffic w1 with
        | (Err e, w2) => (Err e, mkState (this s) w2)
        | (Ok m, w2) =>
            (Ok tt,
             mkState (if bool_decide (m <> ∅) then with_traffic m (this s)
                      else this s) w2)
        end
    end.
Proof.
  unfold updateLocalTraffic.
  rewrite (Run.bind_ok (self_get executor) _ s s _ eq_refl).
  rewrite Run.bind_run, ext_run.
  destruct (spin_once _ _ _ (outside s)) as [[[]|e] w1]; cbn [fst snd];
    [|reflexivity].
  rewrite Run.bind_run, ext_run. cbn [outside this].
  destruct (get_local_traffic w1) as [[m|e] w2]; cbn [fst snd]; [|reflexivity].
  destruct (bool_decide (m <> ∅)); reflexivity.
Qed.

(** C3: when the subscriber is spun and then yields the mapping [m], the
    call returns; with [m] empty the held mapping is the one held before,
    with [m] non-empty it is [m]. *)
Theorem updateLocalTraffic_replaces
    (s : state) (m : gmap Z vessel) (w1 w2 : world) :
  spin_once LocalTrafficSubscriber (executor (this s)) timeout_sec (outside s)
  = (Ok tt, w1) ->
  get_local_traffic w1 = (Ok m, w2) ->
  fst (updateLocalTraffic s) = Ok tt
  /\ (m = ∅ ->
      local_traffic (this (snd (updateLocalTraffic s)))
      = local_traffic (this s))
  /\ (m <> ∅ -> local_traffic (this (snd (updateLocalTraffic s))) = m).
Proof.
  intros Hspin Hget. rewrite updateLocalTraffic_run, Hspin, Hget.
  cbn [fst snd this]. split; [reflexivity|]. split; intros Hm.
  - rewrite bool_decide_eq_false_2 by tauto. reflexivity.
  - rewrite bool_decide_eq_true_2 by assumption. reflexivity.
Qed.

Lemma updateLocalTraffic_traffic (s : state) :
  let s' := snd (updateLocalTraffic s) in
  local_traffic (this s') = local_traffic (this s)
  \/ (fst (updateLocalTraffic s) = Ok tt /\ arrived (local_traffic (this s'))).
Proof.
  cbv zeta. rewrite updateLocalTraffic_run.
  destruct (spin_once _ _ _ (outside s)) as [[[]|e] w1]; [|by left].
  destruct (get_local_traffic w1) as [[m|e] w2] eqn:Hget; [|by left].
  cbn [fst snd this]. case_bool_decide as Hm; [|by left].
  right. split; [reflexivity|]. split; [exact Hm | eauto].
Qed.

Lemma keeps_ret {A} (a : A) : keeps (mret a).
Proof. intros s. reflexivity. Qed.

Lemma keeps_self_get {A} (f : enc -> A) : keeps (self_get f).
Proof. intros s. reflexivity. Qed.

Lemma keeps_ext {A} (c : M world A) : keeps (ext c).
Proof. intros s. rewrite ext_run. reflexivity. Qed.

Lemma keeps_set_executor (e : Executor) : keeps (set_executor e).
Proof. intros s. reflexivity. Qed.

Lemma keeps_bind {A B} (m : M state A) (f : A -> M state B) :
  keeps m -> (forall a, keeps (f a)) -> keeps (m ≫= f).
Proof.
  intros Hm Hf s. rewrite Run.bind_run. specialize (Hm s).
  destruct (m s) as [[a|e] s1]; cbn [snd] in *; [|exact Hm].
  rewrite Hf. exact Hm.
Qed.

Lemma keeps_show_traffic : keeps show_traffic.
Proof.
  unfold show_traffic, size, origin.
  repeat (apply keeps_bind; [first [apply keeps_self_get | apply keeps_ext]|];
          intros ?).
  apply keeps_ext.
Qed.

(** The end of a computation that keeps the mapping can be dropped. *)
Lemma bind_tail {A B} (m : M state A) (f : A -> M state B) (s : state) :
  (forall a, keeps (f a)) ->
  local_traffic (this (snd ((m ≫= f) s))) = local_traffic (this (snd (m s))).
Proof.
  intros Hf. rewrite Run.bind_run.
  destruct (m s) as [[a|e] s1]; cbn [snd]; [apply Hf | reflexivity].
Qed.

(** The start of a computation that keeps the mapping can be run. *)
Lemma after_keeps {A B} (m : M state A) (f : A -> M state B) (s : state)
    (P : gmap Z vessel -> Prop) :
  keeps m ->
  P (local_traffic (this s)) ->
  (forall a s1, local_traffic (this s1) = local_traffic (this s) ->
                P (local_traffic (this (snd (f a s1))))) ->
  P (local_traffic (this (snd ((m ≫= f) s)))).
Proof.
  intros Hm Hnow Hf. rewrite Run.bind_run. specialize (Hm s).
  destruct (m s) as [[a|e] s1]; cbn [snd] in *.
  - apply Hf, Hm.
  - rewrite Hm. exact Hnow.
Qed.

Lemma show_traffic_ok (s s' : state) :
  show_traffic s = (Ok tt, s') -> displayed (local_traffic (this s)).
Proof.
  unfold show_traffic, size, origin.
  rewrite (Run.bind_ok (self_get local_traffic) _ s s _ eq_refl).
  rewrite Run.bind_run, ext_run.
  destruct (extent_size (outside s)) as [[sz|e] w1]; cbn [fst snd];
    [|discriminate].
  rewrite Run.bind_run, ext_run. cbn [outside this].
  destruct (extent_origin w1) as [[og|e] w2]; cbn [fst snd]; [|discriminate].
  rewrite ext_run. cbn [outside this].
  destruct (refresh_vessels (local_traffic (this s)) sz og w2)
    as [[[]|e] w3] eqn:Href; cbn [fst snd]; [|discriminate].
  intros _. exists sz, og, w2, w3. exact Href.
Qed.

Lemma dict_len_positive (t : gmap Z vessel) : dict_len t > 0 -> t <> ∅.
Proof. intros Hlen ->. unfold dict_len in Hlen. rewrite map_size_empty in Hlen. lia. Qed.

Lemma loop_body_traffic (l : locals) (s : state) :
  loop_change (local_traffic (this s))
    (local_traffic (this (snd (loop_body l s)))).
Proof.
  unfold loop_body.
  apply (after_keeps _ _ _ (loop_change (local_traffic (this s))));
    [apply keeps_self_get | by left | intros e s1 H1].
  apply (after_keeps _ _ _ (loop_change (local_traffic (this s))));
    [apply keeps_ext | left; congruence | intros _ s2 H2].
  apply (after_keeps _ _ _ (loop_change (local_traffic (this s))));
    [apply keeps_ext | left; congruence | intros _ s3 H3].
  apply (after_keeps _ _ _ (loop_change (local_traffic (this s))));
    [apply keeps_self_get | left; congruence | intros cbt s4 H4].
  assert (Hs4 : local_traffic (this s4) = local_traffic (this s)) by congruence.
  clear H1 H2 H3 H4 s1 s2 s3.
  rewrite bind_tail
    by (intros l1; apply keeps_bind; [apply keeps_ext | intros; apply keeps_ret]).
  destruct (PrimFloat.leb cbt _); [|by left].
  rewrite Run.bind_run.
  pose proof (updateLocalTraffic_traffic s4) as Hupd. cbv zeta in Hupd.
  destruct (updateLocalTraffic s4) as [[[]|err] s5]; cbn [fst snd] in *.
  2:{ destruct Hupd as [Hsame | [[=] _]]. left. congruence. }
  assert (Hheld : local_traffic (this s5) = local_traffic (this s)
                  \/ arrived (local_traffic (this s5))).
  { destruct Hupd as [Hsame | [_ Harr]]; [left; congruence | by right]. }
  clear Hupd Hs4 s4.
  rewrite (Run.bind_ok (self_get local_traffic) _ s5 s5 _ eq_refl).
  rewrite bind_tail
    by (intros; apply keeps_bind; [apply keeps_ext | intros; apply keeps_ret]).
  case_bool_decide as Hlen.
  - rewrite Run.bind_run.
    pose proof (keeps_show_traffic s5) as Hkeep.
    destruct (show_traffic s5) as [[[]|err] s6] eqn:Hshow; cbn [snd] in *.
    + right. right. split; [reflexivity|].
      exists (local_traffic (this s5)).
      split; [exact Hheld|]. split; [by apply dict_len_positive|].
      eapply show_traffic_ok, Hshow.
    + rewrite Hkeep. destruct Hheld as [->|Harr]; [by left | right; by left].
  - cbn [snd mret M_ret]. destruct Hheld as [->|Harr]; [by left | right; by left].
Qed.

Lemma prologue_traffic (ex : Executor) (duration : float) (s : state) :
  let after := local_traffic (this (snd (start_sim_prologue ex duration s))) in
  after = local_traffic (this s) \/ arrived after.
Proof.
  cbv zeta. unfold start_sim_prologue.
  set (P := fun after => after = local_traffic (this s) \/ arrived after).
  apply (after_keeps _ _ _ P);
    [apply keeps_set_executor | by left | intros _ s1 H1].
  do 5 (apply (after_keeps _ _ _ P);
          [apply keeps_ext | left; congruence | intros ? ? ?]).
  rewrite bind_tail.
  2:{ intros _. repeat (apply keeps_bind;
        [first [apply keeps_show_traffic | apply keeps_ext]| intros ?]).
      apply keeps_ret. }
  unfold P.
  match goal with
  | |- context [updateLocalTraffic ?st] =>
      destruct (updateLocalTraffic_traffic st) as [Hsame | [_ Harr]];
        [left; cbv zeta in Hsame; congruence | by right]
  end.
Qed.

(** C7, as amended: [updateLocalTraffic] and the part of [start_sim] before
    the loop leave the held mapping as it is or replace it by a non-empty
    mapping the subscriber yielded; a pass through the loop does the same,
    or empties the mapping after a non-empty mapping (the one held before
    the pass, or such an update) has been handed to the display. *)
Theorem traffic_replaced_or_reset
    (ex : Executor) (duration : float) (l : locals) (s : state) :
  only_replaced (local_traffic (this s))
    (local_traffic (this (snd (updateLocalTraffic s))))
  /\ only_replaced (local_traffic (this s))
       (local_traffic (this (snd (start_sim_prologue ex duration s))))
  /\ loop_change (local_traffic (this s))
       (local_traffic (this (snd (loop_body l s)))).
Proof.
  split; [|split].
  - destruct (updateLocalTraffic_traffic s) as [Hsame | [_ Harr]];
      [by left | by right].
  - apply prologue_traffic.
  - apply loop_body_traffic.
Qed.

(** *** The loop *)

Lemma succeeds_ret {A} (a : A) : succeeds (mret a).
Proof. intros s. by exists a, s. Qed.

Lemma succeeds_self_get {A} (f : enc -> A) : succeeds (self_get f).
Proof. intros s. by exists (f (this s)), s. Qed.

Lemma succeeds_modify (f : state -> state) : succeeds (modify f).
Proof. intros s. by exists tt, (f s). Qed.

Lemma succeeds_ext {A} (c : M world A) : returns c -> succeeds (ext c).
Proof.
  intros Hc s. destruct (Hc (outside s)) as (a & w & Hw).
  exists a, (mkState (this s) w). by apply ext_ok.
Qed.

Lemma succeeds_bind {A B} (m : M state A) (f : A -> M state B) :
  succeeds m -> (forall a, succeeds (f a)) -> succeeds (m ≫= f).
Proof.
  intros Hm Hf s. destruct (Hm s) as (a & s1 & Hs1).
  rewrite (Run.bind_ok _ _ _ _ _ Hs1). apply Hf.
Qed.

Section Dependable.

Hypothesis Hcalls : loop_calls_return.

Lemma succeeds_updateLocalTraffic : succeeds updateLocalTraffic.
Proof.
  destruct Hcalls as (Hspin & Hget & _).
  unfold updateLocalTraffic.
  apply succeeds_bind; [apply succeeds_self_get | intros e].
  apply succeeds_bind; [apply succeeds_ext, Hspin | intros _].
  apply succeeds_bind; [apply succeeds_ext, Hget | intros m].
  case_bool_decide; [apply succeeds_modify | apply succeeds_ret].
Qed.

Lemma succeeds_show_traffic : succeeds show_traffic.
Proof.
  destruct Hcalls as (_ & _ & _ & _ & _ & Href & _ & _ & Hsize & Horigin).
  unfold show_traffic, size, origin.
  apply succeeds_bind; [apply succeeds_self_get | intros t].
  apply succeeds_bind; [apply succeeds_ext, Hsize | intros sz].
  apply succeeds_bind; [apply succeeds_ext, Horigin | intros og].
  apply succeeds_ext, Href.
Qed.

Lemma succeeds_loop_body (l : locals) : succeeds (loop_body l).
Proof.
  pose proof Hcalls as (Hspin & _ & _ & _ & Hnow & _ & _ & Hplot & _).
  unfold loop_body.
  apply succeeds_bind; [apply succeeds_self_get | intros e].
  apply succeeds_bind; [apply succeeds_ext, Hspin | intros _].
  apply succeeds_bind; [apply succeeds_ext, Hplot | intros _].
  apply succeeds_bind; [apply succeeds_self_get | intros cbt].
  apply succeeds_bind.
  - destruct (PrimFloat.leb cbt _); [|apply succeeds_ret].
    apply succeeds_bind; [apply succeeds_updateLocalTraffic | intros _].
    apply succeeds_bind; [apply succeeds_self_get | intros t].
    apply succeeds_bind.
    + case_bool_decide; [|apply succeeds_ret].
      apply succeeds_bind; [apply succeeds_show_traffic | intros _].
      apply succeeds_modify.
    + intros _. apply succeeds_bind; [apply succeeds_ext, Hnow | intros now].
      apply succeeds_ret.
  - intros l1. apply succeeds_bind; [apply succeeds_ext, Hnow | intros now].
    apply succeeds_ret.
Qed.

Lemma succeeds_prologue (ex : Executor) (duration : float) :
  succeeds (start_sim_prologue ex duration).
Proof.
  pose proof Hcalls as (_ & _ & Hadd & Hdebug & Hnow & _ & Hstatic & Hplot & _).
  unfold start_sim_prologue.
  apply succeeds_bind; [apply succeeds_modify | intros _].
  apply succeeds_bind; [apply succeeds_ext, Hadd | intros _].
  apply succeeds_bind; [apply succeeds_ext, Hdebug | intros _].
  do 3 (apply succeeds_bind; [apply succeeds_ext, Hnow | intros ?]).
  apply succeeds_bind; [apply succeeds_updateLocalTraffic | intros _].
  apply succeeds_bind; [apply succeeds_show_traffic | intros _].
  apply succeeds_bind; [apply succeeds_ext, Hstatic | intros _].
  apply succeeds_bind; [apply succeeds_ext, Hplot | intros _].
  apply succeeds_ret.
Qed.

Lemma while_true_runs (fuel : nat) :
  forall l s, exists l' s',
    while fuel (fun _ => true) loop_body l s = Running l' s'.
Proof.
  induction fuel as [|k IH]; intros l s.
  - by exists l, s.
  - cbn [while]. destruct (succeeds_loop_body l s) as (l1 & s1 & Hbody).
    rewrite Hbody. apply IH.
Qed.

End Dependable.

Lemma while_true_never_returns (fuel : nat) :
  forall l s s', while fuel (fun _ => true) loop_body l s <> Returned s'.
Proof.
  induction fuel as [|k IH]; intros l s s'; cbn [while]; [discriminate|].
  destruct (loop_body l s) as [[l1|e] s1]; [apply IH | discriminate].
Qed.

(** C8: no amount of iterations brings [start_sim] to a return: whatever
    the fuel, the call has either been left by an exception or is still in
    the loop, and the same holds for the loop from any state in which it is
    entered; when the calls into the middleware, the clock and the display
    all come back, the call is still in the loop after any number of
    iterations. *)
Theorem start_sim_never_returns
    (ex : Executor) (duration : float) (s : state) :
  (forall fuel s', start_sim fuel ex duration s <> Returned s')
  /\ (forall fuel l s',
        while fuel (fun _ => true) loop_body l s <> Returned s')
  /\ (loop_calls_return ->
      forall fuel, exists l' s',
        start_sim fuel ex duration s = Running l' s').
Proof.
  split; [|split].
  - intros fuel s'. unfold start_sim.
    destruct (start_sim_prologue ex duration s) as [[l|e] s1];
      [apply while_true_never_returns | discriminate].
  - intros fuel l s'. apply while_true_never_returns.
  - intros Hcalls fuel. unfold start_sim.
    destruct (succeeds_prologue Hcalls ex duration s) as (l & s1 & Hpro).
    rewrite Hpro. by apply while_true_runs.
Qed.

(** *** The parameter that is not read *)

Lemma agree_same {A} (m : M state A) (s : state) : agree eq (m s) (m s).
Proof. split; [reflexivity|]. by destruct (fst (m s)). Qed.

Lemma agree_bind {A B} (R : A -> A -> Prop) (Q : B -> B -> Prop)
    (m1 m2 : M state A) (f1 f2 : A -> M state B) (s : state) :
  agree R (m1 s) (m2 s) ->
  (forall a b s', R a b -> agree Q (f1 a s') (f2 b s')) ->
  agree Q ((m1 ≫= f1) s) ((m2 ≫= f2) s).
Proof.
  intros [Hs Hr] Hf. rewrite !Run.bind_run.
  destruct (m1 s) as [[a|e1] s1], (m2 s) as [[b|e2] s2];
    cbn [fst snd] in *; subst; try contradiction.
  - by apply Hf.
  - by split.
Qed.

(** After the same computation, continuations that agree. *)
Lemma agree_after {A B} (Q : B -> B -> Prop)
    (m : M state A) (f1 f2 : A -> M state B) (s : state) :
  (forall a s', agree Q (f1 a s') (f2 a s')) ->
  agree Q ((m ≫= f1) s) ((m ≫= f2) s).
Proof.
  intros Hf. apply (agree_bind eq); [apply agree_same|].
  intros a b s' <-. apply Hf.
Qed.

Lemma agree_ret {A} (R : A -> A -> Prop) (a b : A) (s : state) :
  R a b -> agree R ((mret a : M state A) s) ((mret b : M state A) s).
Proof. intros Hab. by split. Qed.

Lemma prologue_agree (ex : Executor) (duration1 duration2 : float) (s : state) :
  agree same_frame (start_sim_prologue ex duration1 s)
    (start_sim_prologue ex duration2 s).
Proof.
  unfold start_sim_prologue.
  do 10 (apply agree_after; intros ? ?).
  apply agree_ret. by repeat split.
Qed.

Lemma loop_body_agree (l1 l2 : locals) (s : state) :
  same_frame l1 l2 -> agree same_frame (loop_body l1 s) (loop_body l2 s).
Proof.
  intros (Hstart & Hi & Hnext). unfold loop_body.
  do 4 (apply agree_after; intros ? ?).
  rewrite Hi, Hnext.
  apply (agree_bind same_frame).
  - destruct (PrimFloat.leb _ _); [|by apply agree_ret].
    do 4 (apply agree_after; intros ? ?).
    apply agree_ret. by repeat split.
  - intros ? ? ? (Hstart' & Hi' & _).
    apply agree_after; intros ? ?.
    apply agree_ret. by repeat split.
Qed.

Lemma while_agree (fuel : nat) (cond : locals -> bool) :
  (forall l1 l2, same_frame l1 l2 -> cond l1 = cond l2) ->
  forall l1 l2 s,
    same_frame l1 l2 ->
    same_outcome (while fuel cond loop_body l1 s)
      (while fuel cond loop_body l2 s).
Proof.
  intros Hcond. induction fuel as [|k IH]; intros l1 l2 s Hl; cbn [while].
  - by split.
  - rewrite (Hcond l1 l2 Hl). destruct (cond l2); [|reflexivity].
    destruct (loop_body_agree l1 l2 s Hl) as [Hs Hr].
    destruct (loop_body l1 s) as [[l1'|e1] s1],
             (loop_body l2 s) as [[l2'|e2] s2];
      cbn [fst snd] in *; subst; try contradiction.
    + by apply IH.
    + by split.
Qed.

(** C9: two calls of [start_sim] that differ only in [duration], with the
    same executor and from the same state of the object and of the world,
    have got equally far after any number of iterations: both are in the
    loop, or both have been left by the same exception, in the same state of
    the object and of the world (so after the same calls with the same
    answers), and their frames differ at most in [duration] itself. *)
Theorem start_sim_ignores_duration
    (fuel : nat) (ex : Executor) (duration1 duration2 : float) (s : state) :
  same_outcome (start_sim fuel ex duration1 s) (start_sim fuel ex duration2 s).
Proof.
  unfold start_sim.
  destruct (prologue_agree ex duration1 duration2 s) as [Hs Hr].
  destruct (start_sim_prologue ex duration1 s) as [[l1|e1] s1],
           (start_sim_prologue ex duration2 s) as [[l2|e2] s2];
    cbn [fst snd] in *; subst; try contradiction.
  - by apply while_agree.
  - by split.
Qed.

End Facts.
(** *** The sample world *)

Lemma sim_calls_return : loop_calls_return (H := Samples.sim_middleware).
Proof.
  repeat split; repeat intros ?; try (eexists _, _; reflexivity).
  match goal with
  | n : node, w : world |- _ =>
      destruct n; [|destruct (Samples.pending w) eqn:Hp];
        eexists _, _; cbn; try rewrite Hp; reflexivity
  end.
Qed.

Lemma sim_service_returns : service_calls_return (H := Samples.sim_middleware).
Proof. repeat split; repeat intros ?; eexists _, _; reflexivity. Qed.

Lemma island_well_formed :
  well_formed Samples.island.
Proof.
  unfold well_formed, Samples.island.
  repeat (constructor;
          [eexists _, _; split; [reflexivity|];
           repeat (constructor; [cbn; lia|]); constructor|]).
  constructor.
Qed.

Lemma static_obstacles_one_per_polygon_witness :
  exists resp s',
    _get_static_obstacles_callback (H := Samples.sim_middleware)
      tt (mkResponse None []) Samples.sim_island = (Ok resp, s')
    /\ this s' = this Samples.sim_island
    /\ length (static_obstacles resp) = length (land (this Samples.sim_island))
    /\ Forall2 outer_ring_of (land (this Samples.sim_island))
         (static_obstacles resp)
    /\ exists c ts w1 w2 w3,
         get_clock w1 = (Ok c, w2)
         /\ getTimeStamp c w2 = (Ok ts, w3)
         /\ timestamp resp = Some ts.
Proof.
  exact (static_obstacles_one_per_polygon (H := Samples.sim_middleware)
           tt (mkResponse None []) Samples.sim_island
           island_well_formed sim_service_returns).
Defined.

Lemma updateLocalTraffic_replaces_witness :
  local_traffic (this (snd (updateLocalTraffic (H := Samples.sim_middleware)
                              Samples.sim_start)))
  = Samples.vessels [7]
  /\ local_traffic (this (snd (updateLocalTraffic (H := Samples.sim_middleware)
                                 Samples.sim_quiet)))
     = Samples.vessels [3].
Proof.
  split.
  - apply (updateLocalTraffic_replaces (H := Samples.sim_middleware)
             Samples.sim_start (Samples.vessels [7]) _ _ eq_refl eq_refl).
    vm_compute. discriminate.
  - apply (updateLocalTraffic_replaces (H := Samples.sim_middleware)
             Samples.sim_quiet ∅ _ _ eq_refl eq_refl).
    reflexivity.
Defined.

(** Two non-empty updates arrive, [{7}] before the loop and [{8, 9}] in
    its first pass; after that pass the node holds the empty mapping, which
    is neither what it held before nor anything the subscriber yielded. *)
Lemma traffic_emptied_by_the_loop :
  exists l1 s1,
    start_sim (H := Samples.sim_middleware) 0 tt 0%float Samples.sim_start
    = Running l1 s1
    /\ local_traffic (this s1) = Samples.vessels [7]
    /\ is_ok (fst (loop_body l1 s1)) = true
    /\ Samples.latest (outside (snd (loop_body l1 s1))) = Samples.vessels [8; 9]
    /\ local_traffic (this (snd (loop_body l1 s1))) = ∅
    /\ ~ only_replaced (local_traffic (this s1))
          (local_traffic (this (snd (loop_body l1 s1)))).
Proof.
  eexists _, _. split; [vm_compute; reflexivity|].
  split; [vm_compute; reflexivity|].
  split; [vm_compute; reflexivity|].
  split; [vm_compute; reflexivity|].
  split; [vm_compute; reflexivity|].
  intros [Hsame | [Hne _]].
  - vm_compute in Hsame. discriminate.
  - apply Hne. vm_compute. reflexivity.
Qed.

Lemma start_sim_never_returns_witness :
  (forall s',
     start_sim (H := Samples.sim_middleware) 3 tt 0%float Samples.sim_start
     <> Returned s')
  /\ exists l' s',
       start_sim (H := Samples.sim_middleware) 3 tt 0%float Samples.sim_start
       = Running l' s'.
Proof.
  split.
  - apply (proj1 (start_sim_never_returns (H := Samples.sim_middleware)
                    tt 0%float Samples.sim_start) 3%nat).
  - apply (proj2 (proj2 (start_sim_never_returns (H := Samples.sim_middleware)
                           tt 0%float Samples.sim_start))
             sim_calls_return 3%nat).
Defined.

End SimFacts.

(* ===================================================================== *)
(** ** More on the chart ENC: the construction step by step              *)
(* ===================================================================== *)

Module ChartMore.
Import Seacharts.

Section Facts.

Context `{Library}.

Lemma build_layers_ok (xs : list layer_class) :
  forall (acc ls : gmap string layer) (p : parser) (s : state),
    self s !! "parser" = Some (AParser p) ->
    made p xs acc = Some ls ->
    build_layers xs acc s
    = (Ok ls, mkState (self s) (calls s ++ map CallLayer xs)).
Proof.
  induction xs as [|x rest IH]; intros acc ls p s Hp Hmade.
  - cbn in *. injection Hmade as <-. rewrite app_nil_r. by destruct s.
  - cbn [build_layers made map] in *.
    rewrite (Run.bind_ok _ _ s s p) by (apply ChartFacts.load_parser_run, Hp).
    rewrite Run.bind_run. unfold external.
    destruct (new_layer x p) as [what|l]; [discriminate|]. cbn [from_library].
    rewrite (IH _ ls p) by assumption. cbn [self calls].
    by rewrite <- app_assoc.
Qed.

(** The first layer class whose constructor raises stops the comprehension:
    the classes before it have been called, the ones after it have not. *)
Lemma build_layers_stops (xs : list layer_class) :
  forall (acc : gmap string layer) (p : parser) (s : state)
         (before after : list layer_class) (x : layer_class) (what : string),
    self s !! "parser" = Some (AParser p) ->
    xs = before ++ x :: after ->
    Forall (fun y => exists l, new_layer y p = inr l) before ->
    new_layer x p = inl what ->
    build_layers xs acc s
    = (Err (Foreign what),
       mkState (self s) (calls s ++ map CallLayer (before ++ [x]))).
Proof.
  induction xs as [|y rest IH]; intros acc p s before after x what Hp Hxs Hb Hx.
  - by destruct before.
  - cbn [build_layers].
    rewrite (Run.bind_ok _ _ s s p) by (apply ChartFacts.load_parser_run, Hp).
    rewrite Run.bind_run. unfold external.
    destruct before as [|b before'].
    + cbn in Hxs. injection Hxs as -> ->. rewrite Hx. reflexivity.
    + cbn in Hxs. injection Hxs as -> ->.
      apply Forall_cons in Hb as [[l Hl] Hb]. rewrite Hl. cbn [from_library].
      rewrite (IH _ p _ before' after x what) by done.
      cbn [self calls map app]. by rewrite <- app_assoc.
Qed.

(** A construction from two pairs whose sums exist, call by call. *)
Lemma init_forward (e n w h x y region depths new_data : value) (s : state) :
  add e w = Ok x -> add n h = Ok y ->
  let d := checked (VTuple [e; n]) (VTuple [w; h]) (self s) in
  let bounding_box := VTuple [e; n; x; y] in
  let c1 := calls s ++ [CallParser bounding_box region depths] in
  let c2 := c1 ++ [CallUpdateChartsData _features new_data] in
  __init__ (VTuple [e; n]) (VTuple [w; h]) region depths new_data s
  = match Parser bounding_box region depths with
    | inl what => (Err (Foreign what), mkState d c1)
    | inr p =>
        match update_charts_data p _features new_data with
        | inl what =>
            (Err (Foreign what), mkState (<["parser" := AParser p]> d) c2)
        | inr p' =>
            (build_layers _layers ∅ ≫= fun layers => setattr "layers" (ALayers layers))
              (mkState (<["parser" := AParser p']>
                          (<["parser" := AParser p]> d)) c2)
        end
    end.
Proof.
  intros Hx Hy d bounding_box c1 c2.
  set (s2 := mkState d (calls s)).
  assert (Ho : self s2 !! "origin" = Some (AVal (VTuple [e; n]))).
  { cbn [self s2]. unfold d, checked. by simplify_map_eq. }
  assert (Hw : self s2 !! "window_size" = Some (AVal (VTuple [w; h]))).
  { cbn [self s2]. unfold d, checked. by simplify_map_eq. }
  unfold __init__.
  rewrite (Run.bind_ok _ _ _ _ _
             (ChartFacts.check_origin_pass (VTuple [e; n]) s eq_refl)).
  rewrite (Run.bind_ok _ _ _ _ _
             (ChartFacts.check_window_size_pass (VTuple [w; h]) _ eq_refl)).
  cbn [self calls].
  change (mkState (<["window_size" := _]> _) (calls s)) with s2.
  rewrite Run.bind_run, (ChartFacts.make_bounding_box_run e n w h s2 Ho Hw).
  rewrite Hx, Hy. cbn [mbind result_bind].
  rewrite Run.bind_run, ChartFacts.make_parser_run. cbv zeta.
  fold bounding_box. cbn [self calls s2]. fold c1.
  destruct (Parser bounding_box region depths) as [what|p]; [reflexivity|].
  rewrite Run.bind_run, (ChartFacts.update_parser_run p)
    by (cbn [self]; by simplify_map_eq).
  cbv zeta. cbn [self calls]. fold c2.
  destruct (update_charts_data p _features new_data) as [what|p'];
    reflexivity.
Qed.

Lemma made_three (p : parser) (ls : gmap string layer) :
  made p _layers ∅ = Some ls <->
  exists lo lsf ld,
    new_layer Ocean p = inr lo /\ new_layer Surface p = inr lsf
    /\ new_layer Details p = inr ld
    /\ ls = <["Details" := ld]> (<["Surface" := lsf]> (<["Ocean" := lo]> ∅)).
Proof.
  unfold _layers. cbn [made __name__]. split.
  - destruct (new_layer Ocean p) as [|lo]; [discriminate|].
    destruct (new_layer Surface p) as [|lsf]; [discriminate|].
    destruct (new_layer Details p) as [|ld]; [discriminate|].
    intros [= <-]. by exists lo, lsf, ld.
  - intros (lo & lsf & ld & -> & -> & -> & ->). reflexivity.
Qed.

(** X1: The construction returns an object exactly when both arguments are
    pairs, both sums exist, and the parser, the update of the chart data and
    the three layer constructors all return; the calls are then these five,
    in this order, the layers being built from the parser as the update left
    it, and the object has the four attributes shown. *)
Theorem construction_returns_iff
    (origin window_size region depths new_data : value)
    (obj : gmap string attr) (trace : list call) :
  ENC origin window_size region depths new_data = (Ok obj, trace) <->
  exists e n w h x y p p' lo lsf ld,
    origin = VTuple [e; n] /\ window_size = VTuple [w; h]
    /\ add e w = Ok x /\ add n h = Ok y
    /\ Parser (VTuple [e; n; x; y]) region depths = inr p
    /\ update_charts_data p _features new_data = inr p'
    /\ new_layer Ocean p' = inr lo /\ new_layer Surface p' = inr lsf
    /\ new_layer Details p' = inr ld
    /\ obj = <["layers" := ALayers (<["Details" := ld]>
                                     (<["Surface" := lsf]>
                                        (<["Ocean" := lo]> ∅)))]>
              (<["parser" := AParser p']>
                 (<["window_size" := AVal window_size]>
                    (<["origin" := AVal origin]> ∅)))
    /\ trace = [CallParser (VTuple [e; n; x; y]) region depths;
                CallUpdateChartsData _features new_data;
                CallLayer Ocean; CallLayer Surface; CallLayer Details].
Proof.
  split.
  - intros Henc.
    destruct (ChartFacts.ENC_ok _ _ _ _ _ _ _ Henc)
      as (_ & _ & _ & _ & (e & n & ->) & (w & h & ->)).
    unfold ENC in Henc.
    destruct (__init__ (VTuple [e; n]) (VTuple [w; h]) region depths new_data
                (mkState ∅ [])) as [r s'] eqn:Hrun.
    pose proof (ChartFacts.init_pairs _ _ _ _ _ _ _ _ _ _ Hrun) as Hpairs.
    cbv zeta in Hpairs.
    destruct (add e w) as [x|ex] eqn:Hx; cbn in Hpairs.
    2:{ destruct Hpairs as [-> _]. discriminate. }
    destruct (add n h) as [y|ex] eqn:Hy; cbn in Hpairs.
    2:{ destruct Hpairs as [-> _]. discriminate. }
    clear Hpairs.
    rewrite (init_forward e n w h x y) in Hrun by assumption. cbv zeta in Hrun.
    destruct (Parser (VTuple [e; n; x; y]) region depths) as [what|p] eqn:HP.
    { injection Hrun as <- <-. discriminate. }
    destruct (update_charts_data p _features new_data) as [what|p'] eqn:HU.
    { injection Hrun as <- <-. discriminate. }
    rewrite Run.bind_run in Hrun.
    match type of Hrun with
    | context [build_layers _layers ∅ ?s3] =>
        destruct (ChartFacts.build_layers_run _layers ∅ p' s3) as (ys & _ & Hr);
          [cbn [self]; by simplify_map_eq|];
        destruct (build_layers _layers ∅ s3) as [[ls|ex] s4] eqn:Hbuild;
          cbn [fst] in Hr
    end.
    2:{ injection Hrun as <- <-. discriminate. }
    rewrite (build_layers_ok _ _ ls p') in Hbuild
      by (first [cbn [self]; by simplify_map_eq | assumption]).
    injection Hbuild as <-. cbn [self calls] in Hrun.
    unfold setattr, modify in Hrun. injection Hrun as <- <-.
    injection Henc as <- <-.
    apply made_three in Hr as (lo & lsf & ld & Hlo & Hlsf & Hld & ->).
    exists e, n, w, h, x, y, p, p', lo, lsf, ld.
    cbn [self calls]. unfold checked. rewrite insert_insert_eq.
    repeat split; try assumption; reflexivity.
  - intros (e & n & w & h & x & y & p & p' & lo & lsf & ld
            & -> & -> & Hx & Hy & HP & HU & Hlo & Hlsf & Hld & -> & ->).
    unfold ENC. rewrite (init_forward e n w h x y) by assumption. cbv zeta.
    rewrite HP, HU, Run.bind_run.
    rewrite (build_layers_ok _ _ _ p')
      by (first [cbn [self]; by simplify_map_eq
                | apply made_three; by exists lo, lsf, ld]).
    cbn [self calls setattr modify]. unfold checked.
    rewrite insert_insert_eq. reflexivity.
Qed.

(** X2: An exception out of the parser, out of the update of the chart data or
    out of a layer constructor ends the construction there: the caller gets
    that exception, and no call after the failing one has been made. *)
Theorem library_exception_stops_construction
    (e n w h x y region depths new_data : value) (what : string) :
  add e w = Ok x -> add n h = Ok y ->
  let run := ENC (VTuple [e; n]) (VTuple [w; h]) region depths new_data in
  let parser_call := CallParser (VTuple [e; n; x; y]) region depths in
  let update_call := CallUpdateChartsData _features new_data in
  (Parser (VTuple [e; n; x; y]) region depths = inl what ->
     run = (Err (Foreign what), [parser_call]))
  /\ (forall p,
        Parser (VTuple [e; n; x; y]) region depths = inr p ->
        update_charts_data p _features new_data = inl what ->
        run = (Err (Foreign what), [parser_call; update_call]))
  /\ (forall p p' before cls after,
        Parser (VTuple [e; n; x; y]) region depths = inr p ->
        update_charts_data p _features new_data = inr p' ->
        _layers = before ++ cls :: after ->
        Forall (fun c => exists l, new_layer c p' = inr l) before ->
        new_layer cls p' = inl what ->
        run = (Err (Foreign what),
               parser_call :: update_call :: map CallLayer (before ++ [cls]))).
Proof.
  intros Hx Hy run parser_call update_call. subst run. unfold ENC.
  rewrite (init_forward e n w h x y) by assumption. cbv zeta.
  split; [|split].
  - intros ->. reflexivity.
  - intros p -> ->. reflexivity.
  - intros p p' before cls after -> -> Hsplit Hbefore Hcls.
    rewrite Run.bind_run.
    rewrite (build_layers_stops _ _ p' _ before after cls what)
      by (first [cbn [self]; by simplify_map_eq | assumption]).
    reflexivity.
Qed.

(** X3: When the elements of origin and window size cannot be added, the
    construction ends with the exception of the [+] operator, no call
    having been made. *)
Theorem failed_addition_ends_construction
    (e n w h region depths new_data : value) (ex : exn) :
  (x ← add e w; y ← add n h; Ok (x, y)) = Err ex ->
  ENC (VTuple [e; n]) (VTuple [w; h]) region depths new_data = (Err ex, [])
  /\ exists k msg, ex = Builtin k msg.
Proof.
  intros Hsum. unfold ENC.
  destruct (__init__ (VTuple [e; n]) (VTuple [w; h]) region depths new_data
              (mkState ∅ [])) as [r s'] eqn:Hrun.
  apply ChartFacts.init_pairs in Hrun. cbv zeta in Hrun.
  destruct (add e w) as [x|ex1] eqn:Hx; cbn in Hrun, Hsum.
  - destruct (add n h) as [y|ex2] eqn:Hy; cbn in Hrun, Hsum; [discriminate|].
    injection Hsum as ->. destruct Hrun as [-> ->].
    split; [reflexivity | by eapply ChartFacts.add_error].
  - injection Hsum as ->. destruct Hrun as [-> ->].
    split; [reflexivity | by eapply ChartFacts.add_error].
Qed.

Lemma layers_not_in_class : in_class "layers" = false.
Proof.
  unfold in_class. apply orb_false_iff. split; [reflexivity|].
  destruct (object_attr "layers") eqn:Hobj; [|reflexivity].
  apply object_attr_dunder in Hobj. discriminate.
Qed.

Lemma layers_lookup_loops (depth : nat) (obj : gmap string attr) :
  obj !! "layers" = None ->
  getattribute depth obj "layers" = Err recursion_error.
Proof.
  intros Hno. induction depth as [|d IH]; cbn [getattribute].
  - rewrite bool_decide_eq_false_2 by (by apply ChartFacts.not_property).
    by rewrite Hno, layers_not_in_class.
  - rewrite bool_decide_eq_false_2 by (by apply ChartFacts.not_property).
    rewrite Hno, layers_not_in_class, IH. reflexivity.
Qed.

(** X4: On an object that has no [layers] attribute (one whose construction
    did not get that far), indexing with anything and reading any attribute
    that is not defined end in a [RecursionError]: [__getitem__] reads
    [self.layers], which goes back to [__getattr__]. *)
Theorem lookup_without_layers_recurses (obj : gmap string attr) :
  obj !! "layers" = None ->
  (forall item, __getitem__ obj item = Err recursion_error)
  /\ (forall name,
        obj !! name = None -> in_class name = false ->
        getattr obj name = Err recursion_error).
Proof.
  intros Hno. split.
  - intros item. unfold __getitem__. by rewrite layers_lookup_loops.
  - intros name Hname Hcls. unfold getattr. cbn [getattribute].
    assert (Hprop : bool_decide (name ∈ properties) = false).
    { apply bool_decide_eq_false. intros Hin.
      unfold in_class in Hcls. apply orb_false_iff in Hcls as [Hc _].
      apply bool_decide_eq_false in Hc. apply Hc.
      unfold properties in Hin. unfold class_attrs.
      apply elem_of_cons in Hin as [->|Hin]; [set_solver|].
      apply elem_of_cons in Hin as [->|Hin]; [set_solver|].
      by apply elem_of_nil in Hin. }
    rewrite Hprop, Hname, Hcls, layers_lookup_loops by assumption.
    reflexivity.
Qed.

(** X5: Indexing sees only the letters of the name, not their case: two ASCII
    case variants give the same layer or the same [KeyError], on every
    object. *)
Theorem lookup_same_for_case_variants
    (obj : gmap string attr) (name1 name2 : string) :
  str_is_ascii name1 = true -> str_is_ascii name2 = true ->
  case_variant name1 name2 ->
  __getitem__ obj (VStr name1) = __getitem__ obj (VStr name2).
Proof.
  intros H1 H2 Hvar. apply TextFacts.capitalize_eq_iff in Hvar; [|done..].
  unfold __getitem__. cbn [call_capitalize]. by rewrite Hvar.
Qed.

(** X6: Indexing a constructed chart with something that is not a string
    raises the [AttributeError] of the missing [capitalize] method, not a
    [KeyError]. *)
Theorem index_must_be_a_string
    (origin window_size region depths new_data : value)
    (obj : gmap string attr) (trace : list call) (item : value) :
  ENC origin window_size region depths new_data = (Ok obj, trace) ->
  is_str item = false ->
  exists msg, __getitem__ obj item = Err (Builtin AttributeError msg).
Proof.
  intros Henc Hitem.
  apply ChartFacts.ENC_ok in Henc as (p & ls & -> & _).
  unfold __getitem__.
  change (getattribute recursion_limit) with (getattribute 1000).
  cbn [getattribute Init.Nat.of_num_uint].
  rewrite bool_decide_eq_false_2 by (by apply ChartFacts.not_property).
  rewrite lookup_insert_eq. cbn [mbind result_bind].
  destruct item; try discriminate; cbn; eauto.
Qed.

(** X7: The four attributes of a constructed chart read back what the
    constructor stored, without going through [__getattr__]: the two
    tuples as they were passed, a parser, and a dictionary with the three
    layer names as its keys. *)
Theorem attributes_read_back
    (origin window_size region depths new_data : value)
    (obj : gmap string attr) (trace : list call) :
  ENC origin window_size region depths new_data = (Ok obj, trace) ->
  getattr obj "origin" = Ok (AVal origin)
  /\ getattr obj "window_size" = Ok (AVal window_size)
  /\ (exists p, getattr obj "parser" = Ok (AParser p))
  /\ exists ls,
       getattr obj "layers" = Ok (ALayers ls)
       /\ dom ls = {["Ocean"; "Surface"; "Details"]}.
Proof.
  intros Henc.
  apply ChartFacts.ENC_ok in Henc as (p & ls & -> & Hmade & _).
  unfold checked.
  split; [|split; [|split]].
  - apply ChartFacts.getattr_instance;
      [by apply ChartFacts.not_property | by simplify_map_eq].
  - apply ChartFacts.getattr_instance;
      [by apply ChartFacts.not_property | by simplify_map_eq].
  - exists p. apply ChartFacts.getattr_instance;
      [by apply ChartFacts.not_property | by simplify_map_eq].
  - exists ls. split.
    + apply ChartFacts.getattr_instance;
        [by apply ChartFacts.not_property | by simplify_map_eq].
    + apply made_three in Hmade as (lo & lsf & ld & _ & _ & _ & ->).
      rewrite !dom_insert_L, dom_empty_L. set_solver.
Qed.

End Facts.

Lemma library_exception_stops_construction_witness :
  ENC (H := Samples.strict_library) default_origin default_window_size
    VNone VNone (VBool false)
  = (Err (Foreign "no such region"),
     [CallParser (VTuple [VInt 38100; VInt 6948700; VInt 58100; VInt 6964700])
        VNone VNone])
  /\ ENC (H := Samples.strict_library) default_origin default_window_size
       (VStr "Agder") VNone (VBool false)
     = (Err (Foreign "no depth bins"),
        [CallParser (VTuple [VInt 38100; VInt 6948700; VInt 58100; VInt 6964700])
           (VStr "Agder") VNone;
         CallUpdateChartsData (_features (H := Samples.strict_library))
           (VBool false);
         CallLayer Ocean; CallLayer Surface]).
Proof.
  split.
  - apply (proj1 (library_exception_stops_construction
                    (H := Samples.strict_library)
                    (VInt 38100) (VInt 6948700) (VInt 20000) (VInt 16000)
                    (VInt 58100) (VInt 6964700) VNone VNone (VBool false)
                    "no such region" eq_refl eq_refl)).
    reflexivity.
  - apply (proj2 (proj2 (library_exception_stops_construction
                    (H := Samples.strict_library)
                    (VInt 38100) (VInt 6948700) (VInt 20000) (VInt 16000)
                    (VInt 58100) (VInt 6964700) (VStr "Agder") VNone
                    (VBool false) "no depth bins" eq_refl eq_refl))
             _ _ [Ocean] Surface [Details] eq_refl eq_refl eq_refl).
    + constructor; [by eexists | constructor].
    + reflexivity.
Defined.

Lemma failed_addition_ends_construction_witness :
  ENC (H := Samples.chart_library) (VTuple [VStr "a"; VInt 0])
    (VTuple [VInt 1; VInt 1]) VNone VNone (VBool false)
  = (Err (Builtin TypeError "unsupported operand type(s) for +"), [])
  /\ exists k msg,
       Builtin TypeError "unsupported operand type(s) for +" = Builtin k msg.
Proof.
  exact (failed_addition_ends_construction (H := Samples.chart_library)
           (VStr "a") (VInt 0) (VInt 1) (VInt 1) VNone VNone (VBool false)
           _ eq_refl).
Defined.

Lemma partial_object_has_no_layers :
  ({["origin" := AVal default_origin]}
     : gmap string (attr (H := Samples.chart_library))) !! "layers" = None.
Proof. vm_compute. reflexivity. Qed.

Lemma lookup_without_layers_recurses_witness :
  (forall item,
     __getitem__ (H := Samples.chart_library)
       {["origin" := AVal default_origin]} item
     = Err recursion_error)
  /\ getattr (H := Samples.chart_library)
       {["origin" := AVal default_origin]} "ocean"
     = Err recursion_error.
Proof.
  split.
  - apply (proj1 (lookup_without_layers_recurses (H := Samples.chart_library)
                    _ partial_object_has_no_layers)).
  - apply (proj2 (lookup_without_layers_recurses (H := Samples.chart_library)
                    _ partial_object_has_no_layers));
      vm_compute; reflexivity.
Defined.

Lemma lookup_same_for_case_variants_witness :
  __getitem__ Samples.chart (VStr "SeaBed")
  = __getitem__ Samples.chart (VStr "seabed")
  /\ __getitem__ Samples.chart (VStr "DETAILS")
     = __getitem__ Samples.chart (VStr "details").
Proof.
  split.
  - exact (lookup_same_for_case_variants (H := Samples.chart_library)
             Samples.chart "SeaBed" "seabed" eq_refl eq_refl eq_refl).
  - exact (lookup_same_for_case_variants (H := Samples.chart_library)
             Samples.chart "DETAILS" "details" eq_refl eq_refl eq_refl).
Defined.

Lemma index_must_be_a_string_witness :
  exists msg,
    __getitem__ Samples.chart (VInt 0) = Err (Builtin AttributeError msg).
Proof.
  exact (index_must_be_a_string (H := Samples.chart_library)
           _ _ _ _ _ _ _ (VInt 0) ChartFacts.chart_constructed eq_refl).
Defined.

Lemma attributes_read_back_witness :
  getattr Samples.chart "origin" = Ok (AVal default_origin)
  /\ getattr Samples.chart "window_size" = Ok (AVal default_window_size)
  /\ (exists p, getattr Samples.chart "parser" = Ok (AParser p))
  /\ exists ls,
       getattr Samples.chart "layers" = Ok (ALayers ls)
       /\ dom ls = {["Ocean"; "Surface"; "Details"]}.
Proof.
  exact (attributes_read_back (H := Samples.chart_library)
           _ _ _ _ _ _ _ ChartFacts.chart_constructed).
Defined.

End ChartMore.

(* ===================================================================== *)
(** ** More on the simulation ENC                                        *)
(* ===================================================================== *)

Module SimMore.
Import Simcharts.

Section Facts.

Context `{Middleware}.

Lemma bind_ok_inv {S A B} (m : M S A) (f : A -> M S B) (s s' : S) (b : B) :
  (m ≫= f) s = (Ok b, s') ->
  exists a s1, m s = (Ok a, s1) /\ f a s1 = (Ok b, s').
Proof.
  rewrite Run.bind_run. destruct (m s) as [[a|e] s1]; [eauto | discriminate].
Qed.

Lemma ext_inv {A} (c : M world A) (s s1 : state) (r : result A) :
  ext c s = (r, s1) -> this s1 = this s /\ c (outside s) = (r, outside s1).
Proof.
  rewrite SimFacts.ext_run. intros [= <- <-]. cbn [this outside].
  split; [reflexivity | by destruct (c (outside s))].
Qed.

(** *** Computations that leave the node alone *)

Lemma untouched_ret {A} (a : A) : untouched (mret a).
Proof. intros s. reflexivity. Qed.

Lemma untouched_self_get {A} (f : enc -> A) : untouched (self_get f).
Proof. intros s. reflexivity. Qed.

Lemma untouched_ext {A} (c : M world A) : untouched (ext c).
Proof. intros s. rewrite SimFacts.ext_run. reflexivity. Qed.

Lemma untouched_lift {A} (r : result A) : untouched (lift r).
Proof. intros s. reflexivity. Qed.

Lemma untouched_bind {A B} (m : M state A) (f : A -> M state B) :
  untouched m -> (forall a, untouched (f a)) -> untouched (m ≫= f).
Proof.
  intros Hm Hf s. rewrite Run.bind_run. specialize (Hm s).
  destruct (m s) as [[a|e] s1]; cbn [snd] in *; [|exact Hm].
  rewrite Hf. exact Hm.
Qed.

Lemma same_settings_refl (e : enc) : same_settings e e.
Proof. by repeat split. Qed.

Lemma same_settings_trans (e1 e2 e3 : enc) :
  same_settings e1 e2 -> same_settings e2 e3 -> same_settings e1 e3.
Proof. intros (? & ? & ?) (? & ? & ?). repeat split; congruence. Qed.

Lemma settled_untouched {A} (m : M state A) : untouched m -> settled m.
Proof. intros Hm s. rewrite Hm. apply same_settings_refl. Qed.

Lemma settled_set_local_traffic (t : gmap Z vessel) :
  settled (set_local_traffic t).
Proof. intros s. by repeat split. Qed.

Lemma settled_bind {A B} (m : M state A) (f : A -> M state B) :
  settled m -> (forall a, settled (f a)) -> settled (m ≫= f).
Proof.
  intros Hm Hf s. rewrite Run.bind_run. specialize (Hm s).
  destruct (m s) as [[a|e] s1]; cbn [snd] in *; [|exact Hm].
  eapply same_settings_trans; [exact Hm | apply Hf].
Qed.

Lemma untouched_show_traffic : untouched show_traffic.
Proof.
  unfold show_traffic, size, origin.
  repeat (apply untouched_bind;
          [first [apply untouched_self_get | apply untouched_ext]| intros ?]).
  apply untouched_ext.
Qed.

Lemma settled_updateLocalTraffic : settled updateLocalTraffic.
Proof.
  unfold updateLocalTraffic.
  apply settled_bind; [apply settled_untouched, untouched_self_get | intros e].
  apply settled_bind; [apply settled_untouched, untouched_ext | intros _].
  apply settled_bind; [apply settled_untouched, untouched_ext | intros m].
  case_bool_decide;
    [apply settled_set_local_traffic | apply settled_untouched, untouched_ret].
Qed.

Lemma settled_loop_body (l : locals) : settled (loop_body l).
Proof.
  unfold loop_body.
  apply settled_bind; [apply settled_untouched, untouched_self_get | intros e].
  apply settled_bind; [apply settled_untouched, untouched_ext | intros _].
  apply settled_bind; [apply settled_untouched, untouched_ext | intros _].
  apply settled_bind; [apply settled_untouched, untouched_self_get | intros cbt].
  apply settled_bind.
  - destruct (PrimFloat.leb cbt _); [|apply settled_untouched, untouched_ret].
    apply settled_bind; [apply settled_updateLocalTraffic | intros _].
    apply settled_bind; [apply settled_untouched, untouched_self_get | intros t].
    apply settled_bind.
    + case_bool_decide; [|apply settled_untouched, untouched_ret].
      apply settled_bind;
        [apply settled_untouched, untouched_show_traffic | intros _].
      apply settled_set_local_traffic.
    + intros _. apply settled_bind;
        [apply settled_untouched, untouched_ext | intros now].
      apply settled_untouched, untouched_ret.
  - intros l1. apply settled_bind;
      [apply settled_untouched, untouched_ext | intros now].
    apply settled_untouched, untouched_ret.
Qed.

Lemma while_settled (fuel : nat) :
  forall l s,
    same_settings (this s)
      (this (reached (while fuel (fun _ => true) loop_body l s))).
Proof.
  induction fuel as [|k IH]; intros l s; cbn [while reached].
  - apply same_settings_refl.
  - pose proof (settled_loop_body l s) as Hbody.
    destruct (loop_body l s) as [[l1|e] s1]; cbn [snd reached] in *.
    + eapply same_settings_trans; [exact Hbody | apply IH].
    + exact Hbody.
Qed.

(** X8: A call of [start_sim], however far it has got and however it has
    ended, has made the executor it was given the executor of the node and
    has left the polling period and the land as they were. *)
Theorem start_sim_keeps_settings
    (fuel : nat) (ex : Executor) (duration : float) (s : state) :
  let s' := reached (start_sim fuel ex duration s) in
  executor (this s') = Some ex
  /\ sim_callback_time (this s') = sim_callback_time (this s)
  /\ land (this s') = land (this s).
Proof.
  cbv zeta. unfold start_sim, start_sim_prologue.
  rewrite Run.bind_run. cbn [set_executor modify].
  set (s0 := mkState _ (outside s)).
  assert (Hrest : forall (m : M state locals), settled m ->
            same_settings (this s0)
              (this (reached match m s0 with
                             | (Ok l, s') => while fuel (fun _ => true) loop_body l s'
                             | (Err e, s') => Raised e s'
                             end))).
  { intros m Hm. specialize (Hm s0).
    destruct (m s0) as [[l|e] s1]; cbn [snd reached] in *; [|exact Hm].
    eapply same_settings_trans; [exact Hm | apply while_settled]. }
  match goal with
  | |- context [reached (match ?m s0 with _ => _ end)] =>
      destruct (Hrest m) as (He & Hc & Hl)
  end.
  - do 5 (apply settled_bind;
          [apply settled_untouched, untouched_ext | intros ?]).
    apply settled_bind; [apply settled_updateLocalTraffic | intros _].
    apply settled_bind;
      [apply settled_untouched, untouched_show_traffic | intros _].
    do 2 (apply settled_bind;
          [apply settled_untouched, untouched_ext | intros ?]).
    apply settled_untouched, untouched_ret.
  - rewrite <- He, <- Hc, <- Hl. by repeat split.
Qed.

(** X9: A poll assigns no attribute but [local_traffic], and a poll that ends
    in an exception (of the spin or of the subscriber) assigns nothing. *)
Theorem updateLocalTraffic_touches_only_traffic (s : state) :
  let r := fst (updateLocalTraffic s) in
  let s' := snd (updateLocalTraffic s) in
  same_settings (this s) (this s')
  /\ (forall e, r = Err e -> this s' = this s).
Proof.
  cbv zeta. split; [apply settled_updateLocalTraffic|].
  rewrite SimFacts.updateLocalTraffic_run.
  destruct (spin_once _ _ _ (outside s)) as [[[]|e1] w1]; [|reflexivity].
  destruct (get_local_traffic w1) as [[m|e2] w2]; [|reflexivity].
  cbn [fst]. discriminate.
Qed.

(** *** A pass through the loop *)

Lemma dict_len_zero (t : gmap Z vessel) : ~ dict_len t > 0 -> t = ∅.
Proof.
  unfold dict_len. intros Hlen. apply map_size_empty_inv.
  destruct (base.size t); [reflexivity | lia].
Qed.

Lemma loop_body_ok (l l' : locals) (s s' : state) :
  loop_body l s = (Ok l', s') ->
  if polls l (this s) then local_traffic (this s') = ∅
  else local_traffic (this s') = local_traffic (this s).
Proof.
  unfold loop_body, polls. intros Hrun.
  apply bind_ok_inv in Hrun as (e & s1 & [= <- <-] & Hrun).
  apply bind_ok_inv in Hrun as ([] & s2 & [Hs2 _]%ext_inv & Hrun).
  apply bind_ok_inv in Hrun as ([] & s3 & [Hs3 _]%ext_inv & Hrun).
  apply bind_ok_inv in Hrun as (cbt & s4 & [= <- <-] & Hrun).
  apply bind_ok_inv in Hrun as (l1 & s5 & Hpass & Hrun).
  apply bind_ok_inv in Hrun as (now & s6 & [Hs6 _]%ext_inv & [= _ <-]).
  rewrite Hs6. rewrite Hs3, Hs2 in Hpass. clear Hs6.
  destruct (PrimFloat.leb _ _).
  - apply bind_ok_inv in Hpass as ([] & s7 & Hupd & Hpass).
    apply bind_ok_inv in Hpass as (t & s8 & [= <- <-] & Hpass).
    apply bind_ok_inv in Hpass as ([] & s9 & Hshow & Hpass).
    apply bind_ok_inv in Hpass as (now' & s10 & [Hs10 _]%ext_inv & [= _ <-]).
    rewrite Hs10. clear Hs10.
    case_bool_decide as Hlen.
    + apply bind_ok_inv in Hshow as ([] & s11 & _ & [= <-]). reflexivity.
    + injection Hshow as <-. by apply dict_len_zero.
  - injection Hpass as _ <-. by rewrite Hs3, Hs2.
Qed.

(** X10: A pass that polls and comes back leaves the held mapping empty (it
    has displayed and dropped whatever was held); a pass that does not poll
    and comes back leaves the mapping as it was. *)
Theorem pass_empties_when_it_polls (l l' : locals) (s s' : state) :
  loop_body l s = (Ok l', s') ->
  (polls l (this s) = true -> local_traffic (this s') = ∅)
  /\ (polls l (this s) = false ->
      local_traffic (this s') = local_traffic (this s)).
Proof.
  intros Hrun%loop_body_ok.
  destruct (polls l (this s)); split; intros; congruence.
Qed.

(** X11: Once the held mapping is empty where the loop begins a pass, it is
    empty wherever the loop begins a later pass. *)
Theorem empty_at_every_later_pass (fuel : nat) (l : locals) (s : state) :
  local_traffic (this s) = ∅ ->
  match while fuel (fun _ => true) loop_body l s with
  | Running _ s' => local_traffic (this s') = ∅
  | _ => True
  end.
Proof.
  revert l s. induction fuel as [|k IH]; intros l s Hempty; cbn [while].
  - exact Hempty.
  - destruct (loop_body l s) as [[l1|e] s1] eqn:Hbody; [|exact I].
    apply IH. apply loop_body_ok in Hbody.
    destruct (polls l (this s)); congruence.
Qed.

(** X12: A pass that comes back ends with a reading of the wall clock, kept in
    [t_i_plus_1]; it restarts the poll timer [t_i], with an earlier reading
    of the clock, exactly when it polls; [t_start] stays what it was. *)
Theorem pass_keeps_time (l l' : locals) (s s' : state) :
  loop_body l s = (Ok l', s') ->
  t_start l' = t_start l
  /\ (exists w, now_timestamp w = (Ok (t_i_plus_1 l'), outside s'))
  /\ (polls l (this s) = false -> t_i l' = t_i l)
  /\ (polls l (this s) = true ->
      exists w w', now_timestamp w = (Ok (t_i l'), w')).
Proof.
  unfold loop_body, polls. intros Hrun.
  apply bind_ok_inv in Hrun as (e & s1 & [= <- <-] & Hrun).
  apply bind_ok_inv in Hrun as ([] & s2 & [Hs2 _]%ext_inv & Hrun).
  apply bind_ok_inv in Hrun as ([] & s3 & [Hs3 _]%ext_inv & Hrun).
  apply bind_ok_inv in Hrun as (cbt & s4 & [= <- <-] & Hrun).
  apply bind_ok_inv in Hrun as (l1 & s5 & Hpass & Hrun).
  apply bind_ok_inv in Hrun as (now & s6 & [_ Hnow]%ext_inv & [= <- <-]).
  cbn [t_start t_i t_i_plus_1]. rewrite Hs3, Hs2 in Hpass.
  destruct (PrimFloat.leb _ _).
  - apply bind_ok_inv in Hpass as ([] & s7 & _ & Hpass).
    apply bind_ok_inv in Hpass as (t & s8 & _ & Hpass).
    apply bind_ok_inv in Hpass as ([] & s9 & _ & Hpass).
    apply bind_ok_inv in Hpass as (now' & s10 & [_ Hnow']%ext_inv & [= <- _]).
    cbn [t_start t_i]. split; [reflexivity|]. split; [eauto|].
    split; [discriminate | eauto].
  - injection Hpass as <- _. split; [reflexivity|]. split; [eauto|].
    split; [reflexivity | discriminate].
Qed.

(** *** The service handler on any geometry *)

Lemma collect_points_ok (pol : ring) :
  forall points out,
    collect_points pol points = Ok out ->
    Forall (fun p : position => (2 <= length p)%nat) pol.
Proof.
  induction pol as [|p rest IH]; intros points out Hrun; [constructor|].
  cbn [collect_points] in Hrun. unfold index in Hrun.
  destruct p as [|px [|py more]]; try discriminate.
  cbn in Hrun. constructor; [cbn; lia | eapply IH, Hrun].
Qed.

Lemma collect_points_cases (pol : ring) :
  forall points,
    (exists out, collect_points pol points = Ok out)
    \/ (exists msg, collect_points pol points = Err (Builtin IndexError msg)).
Proof.
  induction pol as [|p rest IH]; intros points; [left; by eexists|].
  cbn [collect_points]. unfold index.
  destruct p as [|px [|py more]]; cbn; [right; by eexists..|].
  apply IH.
Qed.

Lemma collect_obstacles_ok (raw : list (list ring)) :
  forall obstacles out,
    collect_obstacles raw obstacles = Ok out -> well_formed raw.
Proof.
  induction raw as [|rings rest IH]; intros obstacles out Hrun; [constructor|].
  cbn [collect_obstacles] in Hrun. unfold index in Hrun.
  destruct rings as [|outer holes]; [discriminate|]. cbn in Hrun.
  destruct (collect_points outer []) as [points|e] eqn:Hpts; [|discriminate].
  cbn in Hrun. constructor; [|eapply IH, Hrun].
  exists outer, holes. split; [reflexivity | eapply collect_points_ok, Hpts].
Qed.

Lemma collect_obstacles_cases (raw : list (list ring)) :
  forall obstacles,
    (exists out, collect_obstacles raw obstacles = Ok out)
    \/ (exists msg,
          collect_obstacles raw obstacles = Err (Builtin IndexError msg)).
Proof.
  induction raw as [|rings rest IH]; intros obstacles; [left; by eexists|].
  cbn [collect_obstacles]. unfold index.
  destruct rings as [|outer holes]; cbn; [right; by eexists|].
  destruct (collect_points_cases outer []) as [[points ->] | [msg ->]]; cbn.
  - apply IH.
  - right. by eexists.
Qed.

Lemma handler_untouched {Request : Type} (request : Request)
    (response : Response) :
  untouched (_get_static_obstacles_callback request response).
Proof.
  unfold _get_static_obstacles_callback.
  repeat (apply untouched_bind;
          [first [apply untouched_self_get | apply untouched_ext
                 | apply untouched_lift]| intros ?]).
  apply untouched_ret.
Qed.

Lemma handler_ok {Request : Type} (request : Request)
    (response resp : Response) (s s' : state) :
  _get_static_obstacles_callback request response s = (Ok resp, s') ->
  collect_obstacles (land (this s)) [] = Ok (static_obstacles resp).
Proof.
  unfold _get_static_obstacles_callback. intros Hrun.
  apply bind_ok_inv in Hrun as ([] & s1 & [Hs1 _]%ext_inv & Hrun).
  apply bind_ok_inv in Hrun as (raw & s2 & [= <- <-] & Hrun).
  apply bind_ok_inv in Hrun as (obstacles & s3 & [= Hobs <-] & Hrun).
  apply bind_ok_inv in Hrun as (c1 & s4 & _ & Hrun).
  apply bind_ok_inv in Hrun as (c2 & s5 & _ & Hrun).
  apply bind_ok_inv in Hrun as ([] & s6 & _ & Hrun).
  apply bind_ok_inv in Hrun as (c & s7 & _ & Hrun).
  apply bind_ok_inv in Hrun as (ts & s8 & _ & Hrun).
  apply bind_ok_inv in Hrun as ([] & s9 & _ & [= <- _]).
  cbn [static_obstacles]. by rewrite <- Hs1.
Qed.

(** X13: The handler returns a response only for a well-formed geometry. On any
    other (a polygon without rings, a position of an outer ring with fewer
    than two coordinates) it raises an [IndexError] once the first message
    is logged, before the clock is read; the world is then as that logging
    left it. *)
Theorem static_obstacles_need_well_formed_land {Request : Type}
    (request : Request) (response : Response) (s : state) :
  (forall resp s',
     _get_static_obstacles_callback request response s = (Ok resp, s') ->
     well_formed (land (this s)))
  /\ (forall w,
        debug "Sending Static Obstacles..." (outside s) = (Ok tt, w) ->
        ~ well_formed (land (this s)) ->
        exists msg,
          _get_static_obstacles_callback request response s
          = (Err (Builtin IndexError msg), mkState (this s) w)).
Proof.
  split.
  - intros resp s' Hrun. eapply collect_obstacles_ok, handler_ok, Hrun.
  - intros w Hdebug Hill. unfold _get_static_obstacles_callback.
    rewrite (Run.bind_ok _ _ _ _ _ (SimFacts.ext_ok _ _ _ _ Hdebug)).
    rewrite (Run.bind_ok (self_get land) _ (mkState (this s) w) _ _ eq_refl).
    cbn [this].
    destruct (collect_obstacles_cases (land (this s)) [])
      as [[out Hout] | [msg Hmsg]].
    + exfalso. eapply Hill, collect_obstacles_ok, Hout.
    + exists msg. rewrite Run.bind_run. unfold lift. by rewrite Hmsg.
Qed.

(** X14: The handler assigns no attribute of the node, however it ends, and the
    obstacles it returns are determined by the land alone: not by the
    request, the response handed in, the traffic held, the clock or the
    rest of the world. *)
Theorem static_obstacles_read_only_the_land {Request1 Request2 : Type}
    (request1 : Request1) (request2 : Request2)
    (response1 response2 resp1 resp2 : Response) (s1 s2 s1' s2' : state) :
  this (snd (_get_static_obstacles_callback request1 response1 s1)) = this s1
  /\ (land (this s1) = land (this s2) ->
      _get_static_obstacles_callback request1 response1 s1 = (Ok resp1, s1') ->
      _get_static_obstacles_callback request2 response2 s2 = (Ok resp2, s2') ->
      static_obstacles resp1 = static_obstacles resp2).
Proof.
  split; [apply handler_untouched|].
  intros Hland Hrun1%handler_ok Hrun2%handler_ok.
  rewrite Hland, Hrun2 in Hrun1. by injection Hrun1.
Qed.

End Facts.

(** *** The timer callback *)

Section Timer.

Context `{Middleware}.
Variable info : string -> M world unit.
Variable own_method : string -> M state unit.
Variable node_attr : string -> bool.
Variable node_method : string -> M state unit.

(** X15: [timerCallbackGetLocalTraffic] calls a method the class does not
    define: unless the base class has a [sendRequestGetLocalTraffic], the
    callback logs its message and raises an [AttributeError], with the node
    as it was. *)
Theorem timer_callback_raises (s : state) (w : world) :
  node_attr "sendRequestGetLocalTraffic" = false ->
  info "Timer expired, getting local traffic" (outside s) = (Ok tt, w) ->
  exists msg,
    timerCallbackGetLocalTraffic info own_method node_attr node_method s
    = (Err (Builtin AttributeError msg), mkState (this s) w).
Proof.
  intros Hnode Hinfo. unfold timerCallbackGetLocalTraffic.
  rewrite (Run.bind_ok _ _ _ _ _ (SimFacts.ext_ok _ _ _ _ Hinfo)).
  unfold invoke. rewrite bool_decide_eq_false_2, Hnode.
  - by eexists.
  - unfold enc_names. intros Hin.
    repeat (apply elem_of_cons in Hin as [Hin|Hin]; [discriminate|]).
    by apply elem_of_nil in Hin.
Qed.

End Timer.

(** *** The sample world *)

Lemma sim_first_pass_run :
  loop_body (H := Samples.sim_middleware) (fst Samples.sim_entered)
    (snd Samples.sim_entered)
  = (Ok (fst Samples.sim_first_pass), snd Samples.sim_first_pass).
Proof. vm_compute. reflexivity. Qed.

Lemma pass_empties_when_it_polls_witness :
  local_traffic (this (snd Samples.sim_first_pass)) = ∅.
Proof.
  apply (proj1 (pass_empties_when_it_polls (H := Samples.sim_middleware)
                  _ _ _ _ sim_first_pass_run)).
  vm_compute. reflexivity.
Defined.

Lemma pass_keeps_time_witness :
  t_start (fst Samples.sim_first_pass) = t_start (fst Samples.sim_entered)
  /\ (exists w,
        now_timestamp (Middleware := Samples.sim_middleware) w
        = (Ok (t_i_plus_1 (fst Samples.sim_first_pass)),
           outside (snd Samples.sim_first_pass)))
  /\ exists w w',
       now_timestamp (Middleware := Samples.sim_middleware) w
       = (Ok (t_i (fst Samples.sim_first_pass)), w').
Proof.
  destruct (pass_keeps_time (H := Samples.sim_middleware)
              _ _ _ _ sim_first_pass_run) as (Hstart & Hlast & _ & Hpoll).
  split; [exact Hstart|]. split; [exact Hlast|].
  apply Hpoll. vm_compute. reflexivity.
Defined.

Lemma empty_at_every_later_pass_witness :
  match while (H := Samples.sim_middleware) 3 (fun _ => true) loop_body
          (mkLocals 0 0 0 5000) Samples.sim_start with
  | Running _ s' => local_traffic (this s') = ∅
  | _ => True
  end.
Proof.
  exact (empty_at_every_later_pass (H := Samples.sim_middleware) 3
           (mkLocals 0 0 0 5000) Samples.sim_start eq_refl).
Defined.

Lemma broken_coast_ill_formed : ~ well_formed Samples.broken_coast.
Proof.
  unfold well_formed, Samples.broken_coast. intros Hwf.
  apply Forall_cons in Hwf as [_ Hwf].
  apply Forall_cons in Hwf as [(outer & holes & Hrings & _) _].
  discriminate Hrings.
Qed.

Lemma static_obstacles_need_well_formed_land_witness :
  exists msg,
    _get_static_obstacles_callback (H := Samples.sim_middleware) tt
      (mkResponse None []) Samples.sim_broken
    = (Err (Builtin IndexError msg), Samples.sim_broken).
Proof.
  exact (proj2 (static_obstacles_need_well_formed_land
                  (H := Samples.sim_middleware) tt (mkResponse None [])
                  Samples.sim_broken)
           _ eq_refl broken_coast_ill_formed).
Defined.

Lemma timer_callback_raises_witness :
  exists msg,
    timerCallbackGetLocalTraffic (H := Samples.sim_middleware)
      (fun _ w => (Ok tt, w)) (fun _ => mret tt) (fun _ => false)
      (fun _ => mret tt) Samples.sim_start
    = (Err (Builtin AttributeError msg), Samples.sim_start).
Proof.
  exact (timer_callback_raises (H := Samples.sim_middleware)
           (fun _ w => (Ok tt, w)) (fun _ => mret tt) (fun _ => false)
           (fun _ => mret tt) Samples.sim_start _ eq_refl eq_refl).
Defined.

End SimMore.
